(** * The upload placeholder plugin of remirror

    A shallow embedding of
    [packages/remirror__core/src/builtins/upload-extension/file-placeholder-plugin.ts]
    together with the part of the host editing engine (ProseMirror) that the
    plugin calls: position mappings, widget decorations and decoration sets.

    The JavaScript [Map] that holds the payloads is a heap object: the plugin
    mutates it in place and every plugin state holds a reference to it. The
    decoration set is a persistent value of the host engine. *)

From stdpp Require Import gmap strings list fin_maps.
From Stdlib Require Import ZArith Lia.

(** ** JavaScript values and the store of [Map] objects *)

Module JS.

(** The values a caller can hand over as a payload ([payload: any]).
    [undefined] is a value of its own: a [Map] can hold it under a key. *)
Inductive any : Type :=
| undefined
| null
| JBool (b : bool)
| JNumber (n : Z)
| JString (s : string).

(** A reference to a [Map<string, any>] object. *)
Abbreviation loc := nat.

(** The store: one finite map per allocated [Map] object. *)
Abbreviation MapObj := (gmap string any).
Abbreviation heap := (list (gmap string any)).

(** Code that reads and writes the store. *)
Definition Eff (A : Type) : Type := heap → A * heap.

#[global] Instance Eff_ret : MRet Eff := λ A (a : A) h, (a, h).

#[global] Instance Eff_bind : MBind Eff :=
  λ A B (k : A → Eff B) (c : Eff A) h, let (a, h') := c h in k a h'.

(** [new Map()] *)
Definition Map_new : Eff loc := λ h, (length h, h ++ [∅]).

(** [m.set(k, v)] *)
Definition Map_set (m : loc) (k : string) (v : any) : Eff unit :=
  λ h, (tt, alter (insert k v) m h).

(** [m.delete(k)] (the boolean it returns is not used by the plugin) *)
Definition Map_delete (m : loc) (k : string) : Eff unit :=
  λ h, (tt, alter (delete k) m h).

(** The entries of the object behind a reference. *)
Definition deref (h : heap) (m : loc) : gmap string any :=
  default ∅ (h !! m).

(** [m.has(k)] *)
Definition Map_has (h : heap) (m : loc) (k : string) : bool :=
  bool_decide (is_Some (deref h m !! k)).

(** [m.get(k)]: [undefined] when the key has no entry. *)
Definition Map_get (h : heap) (m : loc) (k : string) : any :=
  default undefined (deref h m !! k).

(** [m.size] *)
Definition Map_size (h : heap) (m : loc) : nat := size (deref h m).

End JS.

Export JS.

(** ** The host engine: position mappings (prosemirror-transform) *)

Module Transform.

(** [MapResult]: the mapped position and whether the content next to the
    position, on the side [assoc] points to, was deleted. *)
Record MapResult : Type := { pos : Z; deleted : bool }.

(** A [StepMap] holds ranges (start, oldSize, newSize) in ascending order:
    [oldSize] tokens at [start] were replaced by [newSize] tokens. The step
    maps of the steps of a transaction are not inverted. *)
Definition StepMap := list (Z * Z * Z).

(** [StepMap.mapResult(pos, assoc)]: the loop over the ranges, [diff] being
    the accumulated size change of the ranges passed. *)
Fixpoint StepMap_map (ranges : StepMap) (diff pos assoc : Z) : MapResult :=
  match ranges with
  | [] => {| pos := pos + diff; deleted := false |}
  | (start, oldSize, newSize) :: rest =>
      if (start >? pos)%Z then {| pos := pos + diff; deleted := false |}
      else
        let end_ := (start + oldSize)%Z in
        if (pos <=? end_)%Z then
          let side :=
            if (oldSize =? 0)%Z then assoc
            else if (pos =? start)%Z then (-1)%Z
            else if (pos =? end_)%Z then 1%Z
            else assoc in
          let result :=
            (start + diff + (if (side <? 0)%Z then 0 else newSize))%Z in
          {| pos := result;
             deleted := if (assoc <? 0)%Z then negb (pos =? start)%Z
                        else negb (pos =? end_)%Z |}
        else StepMap_map rest (diff + (newSize - oldSize)) pos assoc
  end.

Definition StepMap_mapResult (m : StepMap) (pos assoc : Z) : MapResult :=
  StepMap_map m 0 pos assoc.

(** The loop of [Mapping.mapResult(pos, assoc)] over the step maps of a
    mapping that has no mirror pairs: the position goes through every step
    map in turn and counts as deleted when one of them deleted it. *)
Fixpoint StepMaps_map (maps : list StepMap) (pos assoc : Z) (del : bool)
  : MapResult :=
  match maps with
  | [] => {| pos := pos; deleted := del |}
  | m :: rest =>
      let result := StepMap_mapResult m pos assoc in
      StepMaps_map rest (Transform.pos result) assoc
        (if Transform.deleted result then true else del)
  end.

(** A [Mapping] object as the decoration set uses it: whether it holds step
    maps at all ([mapping.maps.length == 0]) and what
    [mapping.mapResult(pos, assoc)] answers. A mapping with mirror pairs, as
    rebasing builds it, is a [Maps] with the answers the host gives for it,
    whatever they are. *)
Inductive Mapping : Type :=
| NoMaps
| Maps (mapResult : Z → Z → MapResult).

(** [mapping.mapResult(pos, assoc)] *)
Definition Mapping_mapResult (mapping : Mapping) (pos assoc : Z) : MapResult :=
  match mapping with
  | NoMaps => {| pos := pos; deleted := false |}
  | Maps mapResult => mapResult pos assoc
  end.

(** The mapping of a transaction made of steps with the given step maps and
    without mirror pairs. *)
Definition Mapping_of (maps : list StepMap) : Mapping :=
  match maps with
  | [] => NoMaps
  | _ => Maps (λ pos assoc, StepMaps_map maps pos assoc false)
  end.

End Transform.

Export Transform.

(** ** The host engine: widget decorations and decoration sets
       (prosemirror-view) *)

Module View.

(** The [spec] object the plugin attaches to a widget: [{ id: action.id }]. *)
Record DecorationSpec : Type := { id : string }.

(** A widget decoration: its position and the spec of its type. The plugin
    creates no other kind; a widget's [to] is its [from] and the [side] of
    the plugin's widgets is 0. *)
Record Decoration : Type := { from : Z; spec : DecorationSpec }.

Definition to (d : Decoration) : Z := from d.

(** [Decoration.widget(pos, toDOM, spec)] *)
Definition Decoration_widget (pos : Z) (spec : DecorationSpec) : Decoration :=
  {| from := pos; spec := spec |}.

(** [WidgetType.map]: a widget whose position was deleted is dropped
    ([null]), otherwise it moves to the mapped position. A widget of side 0
    is mapped with [assoc = 1]. *)
Definition Decoration_map (mapping : Mapping) (d : Decoration)
  : option Decoration :=
  let r := Mapping_mapResult mapping (from d) 1 in
  if deleted r then None
  else Some {| from := pos r; spec := spec d |}.

(** [Decoration.eq]: same type and same extent. Two widgets made by the
    plugin with equal specs stand for the same identifier. *)
Definition Decoration_eq (a b : Decoration) : bool :=
  String.eqb (id (spec a)) (id (spec b))
  && (from a =? from b)%Z && (to a =? to b)%Z.

(** A decoration set, as the list of its decorations. The host keeps them in
    a tree that follows the document; the list is the set of a document
    whose decorations all sit in one node, where [find] yields them by
    position. In a nested document [find] yields a node's own decorations
    before those of its children: the order only shows when one identifier
    has several decorations that [find] yields, and no statement below
    depends on it. *)
Definition DecorationSet := list Decoration.

Definition DecorationSet_empty : DecorationSet := [].

(** [byPos]: the comparison the host sorts decorations with. *)
Definition byPos (a b : Decoration) : Z :=
  if (from a - from b =? 0)%Z then (to a - to b)%Z else (from a - from b)%Z.

(** [Array.prototype.sort(byPos)], a stable sort. *)
Fixpoint insert_byPos (d : Decoration) (l : list Decoration)
  : list Decoration :=
  match l with
  | [] => [d]
  | x :: l' => if (byPos d x <=? 0)%Z then d :: l else x :: insert_byPos d l'
  end.

Definition sort_byPos (l : list Decoration) : list Decoration :=
  foldr insert_byPos [] l.

(** [DecorationSet.map(mapping, doc)]: nothing to do on the empty set or
    with a mapping without step maps; otherwise every decoration is mapped,
    the dropped ones are left out and the rest is sorted. *)
Definition DecorationSet_map (s : DecorationSet) (mapping : Mapping)
  : DecorationSet :=
  match s, mapping with
  | [], _ => s
  | _, NoMaps => s
  | _, _ => sort_byPos (omap (Decoration_map mapping) s)
  end.

(** [DecorationSet.add(doc, decorations)] *)
Definition DecorationSet_add (s : DecorationSet) (decorations : list Decoration)
  : DecorationSet :=
  match decorations with
  | [] => s
  | _ => sort_byPos (s ++ decorations)
  end.

(** [DecorationSet.find(start, end, predicate)]: the decorations with
    [span.from <= end && span.to >= start] that satisfy the predicate. An
    omitted [start] is 0 and an omitted [end] is 1e9
    ([start == null ? 0 : start], [end == null ? 1e9 : end]); an omitted
    predicate lets every decoration through. *)
Definition DecorationSet_find (s : DecorationSet) (start end_ : option Z)
    (predicate : option (DecorationSpec → bool)) : list Decoration :=
  let start := default 0%Z start in
  let end_ := default 1000000000%Z end_ in
  List.filter
    (λ d, (from d <=? end_)%Z && (to d >=? start)%Z
          && match predicate with Some p => p (spec d) | None => true end)
    s.

(** [DecorationSet.remove(decorations)]: drops every decoration of the set
    that is [eq] to one of the given ones. *)
Definition DecorationSet_remove (s : DecorationSet) (decorations : list Decoration)
  : DecorationSet :=
  match decorations, s with
  | [], _ => s
  | _, [] => s
  | _, _ => List.filter (λ d, negb (existsb (Decoration_eq d) decorations)) s
  end.

End View.

Export View.

(** ** Transactions and the plugin's actions *)

(** Modelled from the spec: [ActionType] and [PlaceholderPluginAction] of
    [file-placeholder-actions.ts], which is not among the sources. The spec
    gives the tagged action as one of [add: {id, position, payload}] and
    [remove: {id}]. *)
Inductive ActionType : Type := ADD_PLACEHOLDER | REMOVE_PLACEHOLDER.

Inductive PlaceholderPluginAction : Type :=
| AddPlaceholderAction (id : string) (payload : any) (pos : Z)
| RemovePlaceholderAction (id : string).

Definition action_type (a : PlaceholderPluginAction) : ActionType :=
  match a with
  | AddPlaceholderAction _ _ _ => ADD_PLACEHOLDER
  | RemovePlaceholderAction _ => REMOVE_PLACEHOLDER
  end.

Definition action_id (a : PlaceholderPluginAction) : string :=
  match a with
  | AddPlaceholderAction i _ _ => i
  | RemovePlaceholderAction i => i
  end.

(** What the plugin reads of a transaction: [tr.mapping] and the metadata
    stored under the plugin's key, [tr.getMeta(key)]. *)
Record Transaction : Type :=
  { mapping : Mapping; getMeta : option PlaceholderPluginAction }.

(** [setUploadPlaceholderAction(tr, action)]: [tr.setMeta(key, action)]. *)
Definition setUploadPlaceholderAction (tr : Transaction)
    (action : PlaceholderPluginAction) : Transaction :=
  {| mapping := mapping tr; getMeta := Some action |}.

(** ** The plugin *)

Record UploadPlaceholderPluginData : Type :=
  { set : DecorationSet; payloads : loc }.

(** [state.init] *)
Definition init : Eff UploadPlaceholderPluginData :=
  p ← Map_new;
  mret {| set := DecorationSet_empty; payloads := p |}.

(** [state.apply(tr, { set, payloads })] *)
Definition apply (tr : Transaction) (data : UploadPlaceholderPluginData)
  : Eff UploadPlaceholderPluginData :=
  let payloads := payloads data in
  let set := DecorationSet_map (set data) (mapping tr) in
  match getMeta tr with
  | Some action =>
      match action with
      | AddPlaceholderAction id payload pos =>
          let deco := Decoration_widget pos {| id := id |} in
          let set := DecorationSet_add set [deco] in
          Map_set payloads id payload;;
          mret {| set := set; payloads := payloads |}
      | RemovePlaceholderAction id' =>
          let set :=
            DecorationSet_remove set
              (DecorationSet_find set None None
                 (Some (λ spec, String.eqb (id spec) id'))) in
          Map_delete payloads id';;
          mret {| set := set; payloads := payloads |}
      end
  | None => mret {| set := set; payloads := payloads |}
  end.

(** An editor state, as far as the plugin is concerned: the plugin's field,
    absent when the editor was set up without the plugin
    ([key.getState(state)] is then [undefined]). *)
Record EditorState : Type :=
  { key_getState : option UploadPlaceholderPluginData }.

(** [EditorState.create] of an editor that has the plugin. *)
Definition EditorState_create : Eff EditorState :=
  data ← init;
  mret {| key_getState := Some data |}.

(** [state.apply(tr)]: the plugin's field of the new state is the plugin's
    [apply] on the field of the old one. *)
Definition EditorState_apply (tr : Transaction) (state : EditorState)
  : Eff EditorState :=
  match key_getState state with
  | Some data =>
      data' ← apply tr data;
      mret {| key_getState := Some data' |}
  | None => mret state
  end.

(** [findUploadPlaceholderPos(state, id)] *)
Definition findUploadPlaceholderPos (state : EditorState) (id' : string)
  : option Z :=
  match key_getState state with
  | None => None
  | Some data =>
      let found :=
        DecorationSet_find (set data) None None
          (Some (λ spec, String.eqb (id spec) id')) in
      from <$> head found
  end.

(** [findUploadPlaceholderPayload(state, id)] *)
Definition findUploadPlaceholderPayload (h : heap) (state : EditorState)
    (id' : string) : any :=
  match key_getState state with
  | None => undefined
  | Some data => Map_get h (payloads data) id'
  end.

(** [hasUploadingFile(state)] *)
Definition hasUploadingFile (h : heap) (state : EditorState) : bool :=
  let placeholderCount :=
    match key_getState state with
    | None => 0%nat
    | Some data => Map_size h (payloads data)
    end in
  bool_decide (0 < placeholderCount)%nat.

(** ** Observations on plugin states *)

(** The decorations the plugin's query yields for an identifier:
    [set.find(undefined, undefined, (spec) => spec.id === id)]. *)
Definition placeholders (s : DecorationSet) (i : string) : list Decoration :=
  DecorationSet_find s None None (Some (λ spec, String.eqb (id spec) i)).

(** All the decorations of a set that carry an identifier, whether [find]
    yields them or not. *)
Definition decorations_of (s : DecorationSet) (i : string) : list Decoration :=
  List.filter (λ d, String.eqb (id (spec d)) i) s.

(** A decoration lies in the range [find] searches when its bounds are
    omitted. *)
Definition visible (d : Decoration) : bool :=
  (from d <=? 1000000000)%Z && (to d >=? 0)%Z.

Definition all_visible (s : DecorationSet) : bool := forallb visible s.

(** An identifier has a decoration in the set. *)
Definition has_decoration (data : UploadPlaceholderPluginData) (i : string)
  : Prop :=
  ∃ d, d ∈ set data ∧ id (spec d) = i.

(** An identifier has an entry in the payload map. *)
Definition has_payload (h : heap) (data : UploadPlaceholderPluginData)
    (i : string) : Prop :=
  is_Some (deref h (payloads data) !! i).

(** The two halves of a plugin state agree on the identifiers they hold. *)
Definition in_sync (h : heap) (data : UploadPlaceholderPluginData) : Prop :=
  ∀ i, has_decoration data i ↔ has_payload h data i.

(** The payload reference of a state points to an allocated [Map]. *)
Definition allocated (h : heap) (data : UploadPlaceholderPluginData) : Prop :=
  (payloads data < length h)%nat.

(** The transactions of a session, applied in order to a plugin state. *)
Fixpoint applyAll (trs : list Transaction) (data : UploadPlaceholderPluginData)
  : Eff UploadPlaceholderPluginData :=
  match trs with
  | [] => mret data
  | tr :: trs' => data' ← apply tr data; applyAll trs' data'
  end.

(** The plugin state a session reaches: [init], then the transactions. *)
Definition run (trs : list Transaction) : Eff UploadPlaceholderPluginData :=
  data ← init; applyAll trs data.

(** The mapping of a transaction drops none of the decorations of a state. *)
Definition keeps (tr : Transaction) (data : UploadPlaceholderPluginData)
  : bool :=
  forallb (λ d, negb (deleted (Mapping_mapResult (mapping tr) (from d) 1)))
    (set data).

(** A transaction does not add an identifier that has a payload entry. *)
Definition adds_fresh (tr : Transaction) (data : UploadPlaceholderPluginData)
    (h : heap) : bool :=
  match getMeta tr with
  | Some (AddPlaceholderAction i _ _) => negb (Map_has h (payloads data) i)
  | _ => true
  end.

(** No transaction of a session drops a decoration. *)
Fixpoint keepsAll (trs : list Transaction) (data : UploadPlaceholderPluginData)
    (h : heap) : bool :=
  match trs with
  | [] => true
  | tr :: trs' =>
      keeps tr data
      && let (data', h') := apply tr data h in keepsAll trs' data' h'
  end.

(** No transaction of a session drops a decoration or adds an identifier
    that is registered at that moment. *)
Fixpoint regularAll (trs : list Transaction) (data : UploadPlaceholderPluginData)
    (h : heap) : bool :=
  match trs with
  | [] => true
  | tr :: trs' =>
      keeps tr data && adds_fresh tr data h
      && let (data', h') := apply tr data h in regularAll trs' data' h'
  end.

(** After every transaction of a session all the decorations of the set lie
    in the range [find] searches: no add names a position outside it and no
    mapping moves a decoration out of it. *)
Fixpoint visibleAll (trs : list Transaction) (data : UploadPlaceholderPluginData)
    (h : heap) : bool :=
  match trs with
  | [] => true
  | tr :: trs' =>
      let (data', h') := apply tr data h in
      all_visible (set data') && visibleAll trs' data' h'
  end.

(** A transaction adds the identifier [i]. *)
Definition adds (i : string) (tr : Transaction) : bool :=
  match getMeta tr with
  | Some (AddPlaceholderAction j _ _) => String.eqb j i
  | _ => false
  end.

(** Every identifier with a decoration has a payload entry. *)
Definition decorations_have_payloads (h : heap)
    (data : UploadPlaceholderPluginData) : Prop :=
  allocated h data ∧ ∀ i, has_decoration data i → has_payload h data i.

(** Each identifier has one decoration when it has a payload entry and none
    otherwise. *)
Definition one_each (h : heap) (data : UploadPlaceholderPluginData) : Prop :=
  ∀ i, length (decorations_of (set data) i)
       = if Map_has h (payloads data) i then 1%nat else 0%nat.

(** An identifier without a decoration and without a payload entry. *)
Definition absent (i : string) (h : heap) (data : UploadPlaceholderPluginData)
  : Prop :=
  decorations_of (set data) i = [] ∧ deref h (payloads data) !! i = None.

(** No transaction of the list adds the identifier. *)
Definition never_adds (i : string) (trs : list Transaction) : bool :=
  forallb (λ tr, negb (adds i tr)) trs.

(** The action of the transaction, if any, names another identifier. *)
Definition leaves_alone (tr : Transaction) (i : string) : Prop :=
  ∀ a, getMeta tr = Some a → action_id a ≠ i.

(** No transaction of a session started on the store [h0] drops a
    decoration. *)
Definition lossless (trs : list Transaction) (h0 : heap) : bool :=
  keepsAll trs (init h0).1 (init h0).2.

(** No transaction of a session started on the store [h0] drops a decoration
    or adds an identifier that is registered at that moment. *)
Definition regular (trs : list Transaction) (h0 : heap) : bool :=
  regularAll trs (init h0).1 (init h0).2.

(** Throughout a session started on the store [h0] the decorations stay in
    the range [find] searches. *)
Definition bounded (trs : list Transaction) (h0 : heap) : bool :=
  visibleAll trs (init h0).1 (init h0).2.

(** An identifier is registered in an editor state when the payload map of
    the plugin's field has an entry for it. *)
Definition registered (h : heap) (state : EditorState) (i : string) : Prop :=
  ∃ data, key_getState state = Some data ∧ has_payload h data i.

(** What the action of one transaction does to whether an identifier is
    registered: an add of it registers it, a remove of it unregisters it. *)
Definition registers (i : string) (b : bool) (tr : Transaction) : bool :=
  match getMeta tr with
  | Some (AddPlaceholderAction j _ _) => if String.eqb j i then true else b
  | Some (RemovePlaceholderAction j) => if String.eqb j i then false else b
  | None => b
  end.

(** An identifier is currently registered after the transactions of a
    session: the last action that names it is an add. *)
Definition registered_after (trs : list Transaction) (i : string) : bool :=
  foldl (registers i) false trs.

(** ** The rest of the plugin and reference functions for sessions *)

(** [props.decorations(state)]: [this.getState(state).set], what the editor
    paints. Reading [.set] fails (a TypeError, [None] here) on a state that
    lacks the plugin's field. *)
Definition decorations (state : EditorState) : option DecorationSet :=
  match key_getState state with
  | Some data => Some (set data)
  | None => None
  end.

(** The action of a transaction names the identifier. *)
Definition names (i : string) (tr : Transaction) : bool :=
  match getMeta tr with
  | Some a => String.eqb (action_id a) i
  | None => false
  end.

(** What the action of one transaction does to the entries of a payload map,
    read off the two branches of [apply]: [payloads.set(action.id,
    action.payload)] and [payloads.delete(action.id)]. *)
Definition payloads_step (m : gmap string any) (tr : Transaction)
  : gmap string any :=
  match getMeta tr with
  | Some (AddPlaceholderAction i v _) => <[i:=v]> m
  | Some (RemovePlaceholderAction i) => delete i m
  | None => m
  end.

(** The entries after the actions of a list of transactions, in order. *)
Definition payloads_after (trs : list Transaction) (m : gmap string any)
  : gmap string any :=
  foldl payloads_step m trs.

(** A position pushed through the mappings of a list of transactions the way
    a widget of side 0 is: [None] once a mapping deleted it. *)
Fixpoint track (trs : list Transaction) (p : Z) : option Z :=
  match trs with
  | [] => Some p
  | tr :: trs' =>
      let r := Mapping_mapResult (mapping tr) p 1 in
      if deleted r then None else track trs' (pos r)
  end.

(** The position [find] reports for a widget at [q], if it reports one. *)
Definition found_at (q : Z) : option Z :=
  if (q <=? 1000000000)%Z && (q >=? 0)%Z then Some q else None.

(** ** Sessions used as examples *)

(** An upload is registered at position 5, then the user deletes the text
    from 3 to 7. *)
Definition dropped_session : list Transaction :=
  [ {| mapping := NoMaps;
       getMeta := Some (AddPlaceholderAction "A" (JString "file") 5) |};
    {| mapping := Mapping_of [[(3, 4, 0)%Z]]; getMeta := None |} ].

(** The identifier of a running upload is added a second time. *)
Definition double_add_session : list Transaction :=
  [ {| mapping := NoMaps;
       getMeta := Some (AddPlaceholderAction "A" (JString "first") 5) |};
    {| mapping := NoMaps;
       getMeta := Some (AddPlaceholderAction "A" (JString "second") 7) |} ].

(** An upload is registered at a position before the start of the
    document. *)
Definition hidden_add_session : list Transaction :=
  [ {| mapping := NoMaps;
       getMeta := Some (AddPlaceholderAction "N" (JString "file") (-1)) |} ].

(** The same upload, then its removal. *)
Definition hidden_remove_session : list Transaction :=
  hidden_add_session
  ++ [ {| mapping := NoMaps; getMeta := Some (RemovePlaceholderAction "N") |} ].

(** Two uploads, an edit before them and a removal. *)
Definition two_uploads_session : list Transaction :=
  [ {| mapping := NoMaps;
       getMeta := Some (AddPlaceholderAction "A" (JString "a.png") 5) |};
    {| mapping := Mapping_of [[(2, 0, 3)%Z]]; getMeta := None |};
    {| mapping := NoMaps;
       getMeta := Some (AddPlaceholderAction "B" (JString "b.png") 8) |};
    {| mapping := Mapping_of [[(0, 1, 0)%Z]];
       getMeta := Some (RemovePlaceholderAction "A") |} ].

(** A transaction that registers an upload, used in examples. *)
Definition upload_a : Transaction :=
  {| mapping := NoMaps;
     getMeta := Some (AddPlaceholderAction "A" (JString "a.png") 5) |}.

(** ** Facts about the store *)

Section store.
Implicit Types (h : heap) (m : loc) (k : string) (v : any).

Lemma deref_alter_eq h m (f : gmap string any → gmap string any) :
  (m < length h)%nat → deref (alter f m h) m = f (deref h m).
Proof.
  intros Hlt. unfold deref. rewrite list_lookup_alter_eq.
  destruct (lookup_lt_is_Some_2 h m Hlt) as [x ->]. done.
Qed.

Lemma deref_alter_ne h m m' (f : gmap string any → gmap string any) :
  m ≠ m' → deref (alter f m h) m' = deref h m'.
Proof. intros Hne. unfold deref. by rewrite list_lookup_alter_ne. Qed.

Lemma deref_delete_lookup h m k :
  deref (alter (delete k) m h) m !! k = None.
Proof.
  unfold deref. rewrite list_lookup_alter_eq.
  destruct (h !! m) as [x|]; simpl; [apply lookup_delete_eq | done].
Qed.

Lemma deref_delete_lookup_ne h m k k' :
  k ≠ k' → deref (alter (delete k) m h) m !! k' = deref h m !! k'.
Proof.
  intros Hne. unfold deref. rewrite list_lookup_alter_eq.
  destruct (h !! m) as [x|]; simpl; [by apply lookup_delete_ne | done].
Qed.

Lemma deref_insert_lookup h m k v :
  (m < length h)%nat → deref (alter (insert k v) m h) m !! k = Some v.
Proof. intros Hlt. rewrite deref_alter_eq by done. apply lookup_insert_eq. Qed.

Lemma deref_insert_lookup_ne h m k k' v :
  k ≠ k' → deref (alter (insert k v) m h) m !! k' = deref h m !! k'.
Proof.
  intros Hne. unfold deref. rewrite list_lookup_alter_eq.
  destruct (h !! m) as [x|]; simpl; [by apply lookup_insert_ne | done].
Qed.

Lemma alter_delete_absent h m k :
  deref h m !! k = None → alter (delete k) m h = h.
Proof.
  unfold deref. intros Hk. apply list_eq. intros j.
  destruct (decide (m = j)) as [<-|Hne].
  - rewrite list_lookup_alter_eq. destruct (h !! m) as [x|]; simpl; [|done].
    simpl in Hk. by rewrite delete_id.
  - by rewrite list_lookup_alter_ne.
Qed.

Lemma length_alter_heap h m (f : gmap string any → gmap string any) :
  length (alter f m h) = length h.
Proof. apply length_alter. Qed.

Lemma Map_has_true h m k :
  Map_has h m k = true ↔ is_Some (deref h m !! k).
Proof. unfold Map_has. apply bool_decide_eq_true. Qed.

Lemma Map_get_absent h m k :
  deref h m !! k = None → Map_get h m k = undefined.
Proof. unfold Map_get. by intros ->. Qed.

Lemma Map_get_present h m k v :
  deref h m !! k = Some v → Map_get h m k = v.
Proof. unfold Map_get. by intros ->. Qed.

Lemma Map_size_pos h m :
  (0 < Map_size h m)%nat ↔ ∃ k, is_Some (deref h m !! k).
Proof.
  unfold Map_size. split.
  - intros Hpos. destruct (map_size_ne_0_lookup_1 (deref h m)) as [k Hk];
      [lia | by exists k].
  - intros [k Hk].
    assert (size (deref h m) ≠ 0%nat); [|lia].
    apply map_size_ne_0_lookup. by exists k.
Qed.

End store.

(** ** Facts about decoration sets *)

Section decoration_sets.
Implicit Types (s : DecorationSet) (d : Decoration) (i : string).

Lemma filter_Permutation_bool {A} (f : A → bool) (l l' : list A) :
  l ≡ₚ l' → List.filter f l ≡ₚ List.filter f l'.
Proof.
  induction 1 as [|x l l' _ IH|x y l|l l' l'' _ IH1 _ IH2]; simpl.
  - done.
  - destruct (f x); [by constructor | done].
  - destruct (f x), (f y); try done. apply perm_swap.
  - by etrans.
Qed.

Lemma Permutation_nil_iff {A} (l l' : list A) :
  l ≡ₚ l' → l = [] ↔ l' = [].
Proof.
  intros Hp. split; intros ->.
  - by apply Permutation_nil_l in Hp.
  - by apply Permutation_nil_r in Hp.
Qed.

Lemma filter_all_true {A} (f : A → bool) (l : list A) :
  forallb f l = true → List.filter f l = l.
Proof.
  induction l as [|x l IH]; simpl; [done|].
  intros H. apply andb_prop in H as [-> H]. by rewrite IH.
Qed.

Lemma filter_negb_all_true {A} (f : A → bool) (l : list A) :
  forallb f l = true → List.filter (λ x, negb (f x)) l = [].
Proof.
  induction l as [|x l IH]; simpl; [done|].
  intros H. apply andb_prop in H as [-> H]. by apply IH.
Qed.

Lemma forallb_filter {A} (f g : A → bool) (l : list A) :
  forallb f l = true → forallb f (List.filter g l) = true.
Proof.
  rewrite !forallb_forall. intros H x Hx. apply H.
  by apply filter_In in Hx as [? _].
Qed.

Lemma filter_length_le {A} (f : A → bool) (l : list A) :
  (length (List.filter f l) ≤ length l)%nat.
Proof. induction l as [|x l IH]; simpl; [done|]. destruct (f x); simpl; lia. Qed.

Lemma omap_length_le {A B} (f : A → option B) (l : list A) :
  (length (omap f l) ≤ length l)%nat.
Proof.
  induction l as [|a l IH]; [done|].
  change (omap f (a :: l))
    with (match f a with Some b => b :: omap f l | None => omap f l end).
  destruct (f a); simpl; lia.
Qed.

Lemma insert_byPos_Permutation d (l : list Decoration) :
  insert_byPos d l ≡ₚ d :: l.
Proof.
  induction l as [|x l IH]; simpl; [done|].
  destruct (byPos d x <=? 0)%Z; [done|].
  rewrite IH. apply perm_swap.
Qed.

Lemma sort_byPos_Permutation (l : list Decoration) : sort_byPos l ≡ₚ l.
Proof.
  induction l as [|x l IH]; simpl; [done|].
  rewrite insert_byPos_Permutation. by constructor.
Qed.

Lemma visible_iff d :
  visible d = true ↔ (0 ≤ from d ≤ 1000000000)%Z.
Proof. unfold visible, to. rewrite andb_true_iff, Z.leb_le, Z.geb_le. lia. Qed.

Lemma visible_widget p i :
  (0 ≤ p ≤ 1000000000)%Z → visible (Decoration_widget p {| id := i |}) = true.
Proof. intros Hp. by apply visible_iff. Qed.

Lemma found_at_in_range q :
  (0 ≤ q ≤ 1000000000)%Z → found_at q = Some q.
Proof.
  intros Hq. unfold found_at.
  assert ((q <=? 1000000000)%Z && (q >=? 0)%Z = true) as ->; [|done].
  rewrite andb_true_iff, Z.leb_le, Z.geb_le. lia.
Qed.

(** What [find] yields for an identifier are the decorations of the
    identifier that lie in its range. *)
Lemma placeholders_visible s i :
  placeholders s i = List.filter visible (decorations_of s i).
Proof.
  unfold placeholders, decorations_of, DecorationSet_find. cbn [default].
  induction s as [|d s IH]; [done|]. cbn [List.filter].
  fold (visible d). destruct (String.eqb (id (spec d)) i); cbn [List.filter].
  - rewrite andb_true_r. destruct (visible d); by rewrite IH.
  - by rewrite andb_false_r.
Qed.

Lemma elem_of_decorations_of s i d :
  d ∈ decorations_of s i ↔ d ∈ s ∧ id (spec d) = i.
Proof.
  unfold decorations_of. rewrite !list_elem_of_In, filter_In.
  by rewrite String.eqb_eq.
Qed.

Lemma elem_of_placeholders s i d :
  d ∈ placeholders s i ↔ d ∈ s ∧ id (spec d) = i ∧ visible d = true.
Proof.
  rewrite placeholders_visible, list_elem_of_In, filter_In.
  rewrite <- list_elem_of_In, elem_of_decorations_of. tauto.
Qed.

Lemma decorations_of_nil s i :
  decorations_of s i = [] ↔ ∀ d, d ∈ s → id (spec d) ≠ i.
Proof.
  split.
  - intros Hnil d Hd Hid.
    assert (d ∈ decorations_of s i) as Hin by (by apply elem_of_decorations_of).
    rewrite Hnil in Hin. by apply elem_of_nil in Hin.
  - intros Hall. destruct (decorations_of s i) as [|d l] eqn:E; [done|].
    assert (d ∈ decorations_of s i) as Hin by (rewrite E; left).
    apply elem_of_decorations_of in Hin as [Hd Hid]. by destruct (Hall d Hd).
Qed.

Lemma placeholders_nil s i :
  placeholders s i = [] ↔
  ∀ d, d ∈ s → id (spec d) = i → visible d = false.
Proof.
  split.
  - intros Hnil d Hd Hid. apply not_true_is_false. intros Hv.
    assert (d ∈ placeholders s i) as Hin by (by apply elem_of_placeholders).
    rewrite Hnil in Hin. by apply elem_of_nil in Hin.
  - intros Hall. destruct (placeholders s i) as [|d l] eqn:E; [done|].
    assert (d ∈ placeholders s i) as Hin by (rewrite E; left).
    apply elem_of_placeholders in Hin as (Hd & Hid & Hv).
    rewrite (Hall d Hd Hid) in Hv. done.
Qed.

Lemma decorations_of_nil_placeholders s i :
  decorations_of s i = [] → placeholders s i = [].
Proof. rewrite placeholders_visible. by intros ->. Qed.

Lemma all_visible_decorations_of s i :
  all_visible s = true → forallb visible (decorations_of s i) = true.
Proof. apply forallb_filter. Qed.

(** In a set whose decorations all lie in the range, [find] yields every
    decoration of an identifier. *)
Lemma all_visible_placeholders s i :
  all_visible s = true → placeholders s i = decorations_of s i.
Proof.
  intros Hv. rewrite placeholders_visible.
  by apply filter_all_true, all_visible_decorations_of.
Qed.

Lemma decorations_of_Permutation s s' i :
  s ≡ₚ s' → decorations_of s i ≡ₚ decorations_of s' i.
Proof. apply filter_Permutation_bool. Qed.

Lemma decorations_of_app s s' i :
  decorations_of (s ++ s') i = decorations_of s i ++ decorations_of s' i.
Proof. apply List.filter_app. Qed.

Lemma all_visible_Permutation s s' :
  s ≡ₚ s' → all_visible s = all_visible s'.
Proof.
  intros Hp. unfold all_visible.
  destruct (forallb visible s) eqn:E1, (forallb visible s') eqn:E2; try done.
  - rewrite forallb_forall in E1. apply not_true_iff_false in E2. destruct E2.
    apply forallb_forall. intros x Hx. apply E1.
    apply list_elem_of_In. rewrite Hp. by apply list_elem_of_In.
  - rewrite forallb_forall in E2. apply not_true_iff_false in E1. destruct E1.
    apply forallb_forall. intros x Hx. apply E2.
    apply list_elem_of_In. rewrite <- Hp. by apply list_elem_of_In.
Qed.

Lemma Decoration_map_spec (m : Mapping) d d' :
  Decoration_map m d = Some d' → spec d' = spec d.
Proof.
  unfold Decoration_map.
  destruct (deleted _); [done|]. by intros [= <-].
Qed.

Lemma Decoration_map_NoMaps d : Decoration_map NoMaps d = Some d.
Proof. by destruct d. Qed.

Lemma omap_cons_Decoration_map (m : Mapping) d s :
  omap (Decoration_map m) (d :: s)
  = match Decoration_map m d with
    | Some d' => d' :: omap (Decoration_map m) s
    | None => omap (Decoration_map m) s
    end.
Proof. reflexivity. Qed.

Lemma omap_Decoration_map_NoMaps s : omap (Decoration_map NoMaps) s = s.
Proof.
  induction s as [|d s IH]; [done|].
  by rewrite omap_cons_Decoration_map, Decoration_map_NoMaps, IH.
Qed.

Lemma DecorationSet_map_Permutation s (m : Mapping) :
  DecorationSet_map s m ≡ₚ omap (Decoration_map m) s.
Proof.
  unfold DecorationSet_map. destruct s as [|d s]; [done|].
  destruct m as [|f].
  - by rewrite omap_Decoration_map_NoMaps.
  - apply sort_byPos_Permutation.
Qed.

Lemma elem_of_DecorationSet_map s (m : Mapping) d :
  d ∈ DecorationSet_map s m ↔ ∃ d0, d0 ∈ s ∧ Decoration_map m d0 = Some d.
Proof.
  rewrite DecorationSet_map_Permutation, list_elem_of_omap. naive_solver.
Qed.

Lemma decorations_of_omap s (m : Mapping) i :
  decorations_of (omap (Decoration_map m) s) i
  = omap (Decoration_map m) (decorations_of s i).
Proof.
  unfold decorations_of.
  induction s as [|d s IH]; [done|].
  rewrite omap_cons_Decoration_map. cbn [List.filter].
  destruct (Decoration_map m d) as [d'|] eqn:E.
  - cbn [List.filter]. rewrite (Decoration_map_spec _ _ _ E).
    destruct (String.eqb (id (spec d)) i).
    + by rewrite omap_cons_Decoration_map, E, IH.
    + done.
  - destruct (String.eqb (id (spec d)) i).
    + by rewrite omap_cons_Decoration_map, E, IH.
    + done.
Qed.

Lemma decorations_of_map s (m : Mapping) i :
  decorations_of (DecorationSet_map s m) i
  ≡ₚ omap (Decoration_map m) (decorations_of s i).
Proof.
  rewrite <- decorations_of_omap.
  apply decorations_of_Permutation, DecorationSet_map_Permutation.
Qed.

Lemma DecorationSet_add_Permutation s d :
  DecorationSet_add s [d] ≡ₚ s ++ [d].
Proof. apply sort_byPos_Permutation. Qed.

Lemma decorations_of_add s d i :
  decorations_of (DecorationSet_add s [d]) i
  ≡ₚ decorations_of s i ++ (if String.eqb (id (spec d)) i then [d] else []).
Proof.
  rewrite (decorations_of_Permutation _ _ i (DecorationSet_add_Permutation s d)).
  rewrite decorations_of_app. unfold decorations_of at 2. simpl.
  by destruct (String.eqb (id (spec d)) i).
Qed.

Lemma Decoration_eq_refl d : Decoration_eq d d = true.
Proof.
  unfold Decoration_eq. by rewrite String.eqb_refl, !Z.eqb_refl.
Qed.

Lemma Decoration_eq_id d d' :
  Decoration_eq d d' = true → id (spec d) = id (spec d').
Proof.
  unfold Decoration_eq. intros H.
  apply andb_prop in H as [H _]. apply andb_prop in H as [H _].
  by apply String.eqb_eq.
Qed.

Lemma Decoration_eq_visible d d' :
  Decoration_eq d d' = true → visible d = visible d'.
Proof.
  unfold Decoration_eq, visible, to. intros H.
  apply andb_prop in H as [H _]. apply andb_prop in H as [_ H].
  apply Z.eqb_eq in H. by rewrite H.
Qed.

(** Removing what [find] yields for an identifier takes out the decorations
    of the identifier that lie in the range of [find], and no other. *)
Lemma DecorationSet_remove_placeholders s i :
  DecorationSet_remove s (placeholders s i)
  = List.filter (λ d, negb (String.eqb (id (spec d)) i && visible d)) s.
Proof.
  assert (∀ d, d ∈ s →
            negb (existsb (Decoration_eq d) (placeholders s i))
            = negb (String.eqb (id (spec d)) i && visible d)) as Hext.
  { intros d Hd. f_equal.
    destruct (String.eqb (id (spec d)) i && visible d) eqn:E.
    - apply andb_prop in E as [Ei Ev].
      apply existsb_exists. exists d. split; [|apply Decoration_eq_refl].
      apply list_elem_of_In, elem_of_placeholders.
      split; [done|]. split; [by apply String.eqb_eq | done].
    - apply not_true_is_false. intros Hex.
      apply existsb_exists in Hex as (d' & Hd' & Heq).
      apply list_elem_of_In, elem_of_placeholders in Hd' as (_ & Hid & Hv).
      pose proof (Decoration_eq_id _ _ Heq) as Hid'.
      pose proof (Decoration_eq_visible _ _ Heq) as Hv'.
      rewrite Hv', Hv, andb_true_r in E.
      apply String.eqb_neq in E. congruence. }
  unfold DecorationSet_remove.
  destruct (placeholders s i) as [|d0 l0] eqn:Ep.
  - symmetry. rewrite <- (List.filter_ext_in _ _ s
      (λ d Hd, Hext d (proj2 (list_elem_of_In _ _) Hd))).
    simpl. clear. induction s; simpl; [done | by f_equal].
  - destruct s as [|d s']; [done|].
    apply List.filter_ext_in. intros a Ha. apply Hext. by apply list_elem_of_In.
Qed.

Lemma elem_of_DecorationSet_remove s i d :
  d ∈ DecorationSet_remove s (placeholders s i)
  ↔ d ∈ s ∧ ¬ (id (spec d) = i ∧ visible d = true).
Proof.
  rewrite DecorationSet_remove_placeholders, !list_elem_of_In, filter_In.
  rewrite negb_true_iff, andb_false_iff, String.eqb_neq.
  split; intros [Hin H]; (split; [done|]).
  - intros [Hid Hv]. destruct H as [H|H]; [done | by rewrite Hv in H].
  - destruct (visible d) eqn:Hv; [left | by right].
    intros Hid. by apply H.
Qed.

Lemma decorations_of_remove_eq s i :
  decorations_of (DecorationSet_remove s (placeholders s i)) i
  = List.filter (λ d, negb (visible d)) (decorations_of s i).
Proof.
  rewrite DecorationSet_remove_placeholders. unfold decorations_of.
  induction s as [|d s IH]; simpl; [done|].
  destruct (String.eqb (id (spec d)) i) eqn:Ei; simpl.
  - destruct (visible d); simpl; rewrite ?Ei; by rewrite IH.
  - by rewrite Ei, IH.
Qed.

Lemma decorations_of_remove_ne s i j :
  i ≠ j →
  decorations_of (DecorationSet_remove s (placeholders s i)) j
  = decorations_of s j.
Proof.
  intros Hne. rewrite DecorationSet_remove_placeholders. unfold decorations_of.
  induction s as [|d s IH]; simpl; [done|].
  destruct (String.eqb (id (spec d)) i) eqn:Ei; simpl.
  - apply String.eqb_eq in Ei.
    assert (String.eqb (id (spec d)) j = false) as Ej
      by (apply String.eqb_neq; congruence).
    destruct (visible d); simpl; rewrite ?Ej; by rewrite IH.
  - by rewrite IH.
Qed.

Lemma placeholders_remove_eq s i :
  placeholders (DecorationSet_remove s (placeholders s i)) i = [].
Proof.
  apply placeholders_nil. intros d Hd Hid. apply not_true_is_false. intros Hv.
  apply elem_of_DecorationSet_remove in Hd as [_ Hd]. by apply Hd.
Qed.

End decoration_sets.

(** ** Facts about the plugin's [apply] *)

Section plugin.
Implicit Types (tr : Transaction) (data : UploadPlaceholderPluginData).
Implicit Types (h : heap) (i j : string) (v : any) (p : Z).

Lemma apply_none tr data h :
  getMeta tr = None →
  apply tr data h
  = ({| set := DecorationSet_map (set data) (mapping tr);
        payloads := payloads data |}, h).
Proof. unfold apply. by intros ->. Qed.

Lemma apply_add tr data h i v p :
  getMeta tr = Some (AddPlaceholderAction i v p) →
  apply tr data h
  = ({| set := DecorationSet_add (DecorationSet_map (set data) (mapping tr))
                 [Decoration_widget p {| id := i |}];
        payloads := payloads data |},
     alter (insert i v) (payloads data) h).
Proof. unfold apply. by intros ->. Qed.

Lemma apply_remove tr data h i :
  getMeta tr = Some (RemovePlaceholderAction i) →
  apply tr data h
  = ({| set := DecorationSet_remove
                 (DecorationSet_map (set data) (mapping tr))
                 (placeholders (DecorationSet_map (set data) (mapping tr)) i);
        payloads := payloads data |},
     alter (delete i) (payloads data) h).
Proof. unfold apply. by intros ->. Qed.

Lemma apply_payloads tr data h :
  payloads (apply tr data h).1 = payloads data.
Proof.
  destruct (getMeta tr) as [[i v p|i]|] eqn:E.
  - by rewrite (apply_add _ _ _ _ _ _ E).
  - by rewrite (apply_remove _ _ _ _ E).
  - by rewrite (apply_none _ _ _ E).
Qed.

Lemma apply_length tr data h :
  length (apply tr data h).2 = length h.
Proof.
  destruct (getMeta tr) as [[i v p|i]|] eqn:E.
  - rewrite (apply_add _ _ _ _ _ _ E). apply length_alter.
  - rewrite (apply_remove _ _ _ _ E). apply length_alter.
  - by rewrite (apply_none _ _ _ E).
Qed.

Lemma apply_allocated tr data h :
  allocated h data → allocated (apply tr data h).2 (apply tr data h).1.
Proof. unfold allocated. by rewrite apply_payloads, apply_length. Qed.

(** All the decorations of an identifier after a transaction, up to their
    order in the set: a remove leaves those outside the range of [find]. *)
Lemma decorations_of_apply tr data h i :
  decorations_of (set (apply tr data h).1) i
  ≡ₚ match getMeta tr with
     | Some (AddPlaceholderAction j v p) =>
         omap (Decoration_map (mapping tr)) (decorations_of (set data) i)
         ++ (if String.eqb j i then [Decoration_widget p {| id := j |}]
             else [])
     | Some (RemovePlaceholderAction j) =>
         if String.eqb j i
         then List.filter (λ d, negb (visible d))
                (omap (Decoration_map (mapping tr))
                   (decorations_of (set data) i))
         else omap (Decoration_map (mapping tr)) (decorations_of (set data) i)
     | None =>
         omap (Decoration_map (mapping tr)) (decorations_of (set data) i)
     end.
Proof.
  destruct (getMeta tr) as [[j v p|j]|] eqn:E.
  - rewrite (apply_add _ _ _ _ _ _ E). cbn [fst snd set payloads].
    rewrite decorations_of_add. cbn [spec id Decoration_widget].
    by rewrite decorations_of_map.
  - rewrite (apply_remove _ _ _ _ E). cbn [fst snd set payloads].
    destruct (String.eqb j i) eqn:Ej.
    + apply String.eqb_eq in Ej as ->. rewrite decorations_of_remove_eq.
      apply filter_Permutation_bool, decorations_of_map.
    + apply String.eqb_neq in Ej.
      rewrite decorations_of_remove_ne by done. apply decorations_of_map.
  - rewrite (apply_none _ _ _ E). cbn [fst snd set payloads].
    apply decorations_of_map.
Qed.

(** What [find] yields for an identifier after a transaction. *)
Lemma placeholders_apply tr data h i :
  placeholders (set (apply tr data h).1) i
  ≡ₚ match getMeta tr with
     | Some (AddPlaceholderAction j v p) =>
         List.filter visible
           (omap (Decoration_map (mapping tr)) (decorations_of (set data) i)
            ++ (if String.eqb j i then [Decoration_widget p {| id := j |}]
                else []))
     | Some (RemovePlaceholderAction j) =>
         if String.eqb j i then []
         else List.filter visible
                (omap (Decoration_map (mapping tr))
                   (decorations_of (set data) i))
     | None =>
         List.filter visible
           (omap (Decoration_map (mapping tr)) (decorations_of (set data) i))
     end.
Proof.
  destruct (getMeta tr) as [[j v p|j]|] eqn:E.
  - rewrite placeholders_visible.
    rewrite (filter_Permutation_bool _ _ _ (decorations_of_apply tr data h i)).
    by rewrite E.
  - destruct (String.eqb j i) eqn:Ej.
    + apply String.eqb_eq in Ej as ->.
      rewrite (apply_remove _ _ _ _ E). cbn [fst snd set payloads].
      by rewrite placeholders_remove_eq.
    + rewrite placeholders_visible.
      rewrite (filter_Permutation_bool _ _ _ (decorations_of_apply tr data h i)).
      by rewrite E, Ej.
  - rewrite placeholders_visible.
    rewrite (filter_Permutation_bool _ _ _ (decorations_of_apply tr data h i)).
    by rewrite E.
Qed.

Lemma placeholders_apply_remove_same tr data h i :
  getMeta tr = Some (RemovePlaceholderAction i) →
  placeholders (set (apply tr data h).1) i = [].
Proof.
  intros E. rewrite (Permutation_nil_iff _ _ (placeholders_apply tr data h i)).
  by rewrite E, String.eqb_refl.
Qed.

(** The entry of an identifier in the payload map after a transaction. *)
Lemma payload_apply tr data h i :
  allocated h data →
  deref (apply tr data h).2 (payloads (apply tr data h).1) !! i
  = match getMeta tr with
    | Some (AddPlaceholderAction j v p) =>
        if String.eqb j i then Some v else deref h (payloads data) !! i
    | Some (RemovePlaceholderAction j) =>
        if String.eqb j i then None else deref h (payloads data) !! i
    | None => deref h (payloads data) !! i
    end.
Proof.
  intros Ha. rewrite apply_payloads.
  destruct (getMeta tr) as [[j v p|j]|] eqn:E.
  - rewrite (apply_add _ _ _ _ _ _ E). cbn [fst snd set payloads].
    destruct (String.eqb j i) eqn:Ej.
    + apply String.eqb_eq in Ej as ->. by apply deref_insert_lookup.
    + apply String.eqb_neq in Ej. by apply deref_insert_lookup_ne.
  - rewrite (apply_remove _ _ _ _ E). cbn [fst snd set payloads].
    destruct (String.eqb j i) eqn:Ej.
    + apply String.eqb_eq in Ej as ->. apply deref_delete_lookup.
    + apply String.eqb_neq in Ej. by apply deref_delete_lookup_ne.
  - by rewrite (apply_none _ _ _ E).
Qed.

(** A removed identifier has no entry, whatever the store looks like. *)
Lemma payload_apply_remove tr data h i :
  getMeta tr = Some (RemovePlaceholderAction i) →
  deref (apply tr data h).2 (payloads (apply tr data h).1) !! i = None.
Proof.
  intros E. rewrite apply_payloads, (apply_remove _ _ _ _ E).
  cbn [fst snd set payloads]. apply deref_delete_lookup.
Qed.

Lemma payload_apply_add tr data h i v p :
  allocated h data → getMeta tr = Some (AddPlaceholderAction i v p) →
  deref (apply tr data h).2 (payloads (apply tr data h).1) !! i = Some v.
Proof.
  intros Ha E. rewrite payload_apply by done. by rewrite E, String.eqb_refl.
Qed.

Lemma has_decoration_decorations_of data i :
  has_decoration data i ↔ decorations_of (set data) i ≠ [].
Proof.
  unfold has_decoration. split.
  - intros (d & Hd & Hid) Hnil.
    by apply (proj1 (decorations_of_nil _ _) Hnil d Hd).
  - intros Hne. destruct (decorations_of (set data) i) as [|d l] eqn:E; [done|].
    exists d. apply elem_of_decorations_of. rewrite E. left.
Qed.

Lemma keeps_Decoration_map tr data d :
  keeps tr data = true → d ∈ set data →
  is_Some (Decoration_map (mapping tr) d).
Proof.
  unfold keeps. rewrite forallb_forall. intros Hall Hd.
  apply list_elem_of_In, Hall in Hd. unfold Decoration_map.
  apply negb_true_iff in Hd. rewrite Hd. by eexists.
Qed.

Lemma keeps_omap_length tr data (l : list Decoration) :
  keeps tr data = true → l ⊆ set data →
  length (omap (Decoration_map (mapping tr)) l) = length l.
Proof.
  intros Hk. induction l as [|d l IH]; intros Hsub; [done|].
  rewrite omap_cons_Decoration_map.
  destruct (keeps_Decoration_map tr data d Hk) as [d' ->].
  - apply Hsub. left.
  - simpl. f_equal. apply IH. intros x Hx. apply Hsub. by right.
Qed.

Lemma decorations_of_subseteq (s : DecorationSet) i : decorations_of s i ⊆ s.
Proof. intros d Hd. by apply elem_of_decorations_of in Hd as [? _]. Qed.

(** In a state whose decorations all lie in the range of [find], a removed
    identifier has no decoration left. *)
Lemma decorations_of_apply_remove_visible tr data h i :
  getMeta tr = Some (RemovePlaceholderAction i) →
  all_visible (set (apply tr data h).1) = true →
  decorations_of (set (apply tr data h).1) i = [].
Proof.
  intros E Hv. rewrite <- all_visible_placeholders by done.
  by apply placeholders_apply_remove_same.
Qed.

End plugin.

(** ** Transactions that name another identifier *)

Section other_identifiers.
Implicit Types (tr : Transaction) (data : UploadPlaceholderPluginData).
Implicit Types (h : heap) (i : string).

Lemma leaves_alone_remove tr i j :
  getMeta tr = Some (RemovePlaceholderAction j) → j ≠ i → leaves_alone tr i.
Proof. intros E Hne a. rewrite E. by intros [= <-]. Qed.

Lemma leaves_alone_add tr i j v p :
  getMeta tr = Some (AddPlaceholderAction j v p) → j ≠ i → leaves_alone tr i.
Proof. intros E Hne a. rewrite E. by intros [= <-]. Qed.

Lemma names_false_leaves_alone tr i : names i tr = false → leaves_alone tr i.
Proof.
  unfold names. intros Hn a E. rewrite E in Hn. by apply String.eqb_neq.
Qed.

Lemma decorations_of_apply_other tr data h i :
  leaves_alone tr i →
  decorations_of (set (apply tr data h).1) i
  ≡ₚ omap (Decoration_map (mapping tr)) (decorations_of (set data) i).
Proof.
  intros Hother. rewrite decorations_of_apply.
  destruct (getMeta tr) as [[j w p|j]|] eqn:E; [| |done].
  - assert (String.eqb j i = false) as ->; [|by rewrite app_nil_r].
    apply String.eqb_neq. by apply (Hother _ E).
  - assert (String.eqb j i = false) as ->; [|done].
    apply String.eqb_neq. by apply (Hother _ E).
Qed.

Lemma decorations_of_apply_other_single tr data h i p q :
  leaves_alone tr i →
  Mapping_mapResult (mapping tr) p 1 = {| pos := q; deleted := false |} →
  decorations_of (set data) i = [Decoration_widget p {| id := i |}] →
  decorations_of (set (apply tr data h).1) i
  = [Decoration_widget q {| id := i |}].
Proof.
  intros Hother Hm Hp. apply Permutation_singleton_r.
  rewrite decorations_of_apply_other by done. rewrite Hp.
  rewrite omap_cons_Decoration_map. unfold Decoration_map.
  cbn [from Decoration_widget spec]. by rewrite Hm.
Qed.

Lemma decorations_of_apply_other_nil tr data h i :
  leaves_alone tr i →
  decorations_of (set data) i = [] →
  decorations_of (set (apply tr data h).1) i = [].
Proof.
  intros Hother Hnil.
  apply (Permutation_nil_iff _ _ (decorations_of_apply_other tr data h i Hother)).
  by rewrite Hnil.
Qed.

Lemma decorations_of_apply_add_new tr data h i v p :
  getMeta tr = Some (AddPlaceholderAction i v p) →
  decorations_of (set data) i = [] →
  decorations_of (set (apply tr data h).1) i
  = [Decoration_widget p {| id := i |}].
Proof.
  intros E Hnil. apply Permutation_singleton_r.
  by rewrite decorations_of_apply, E, Hnil, String.eqb_refl.
Qed.

(** A single decoration in the range of [find] is what [find] yields. *)
Lemma placeholders_single (s : DecorationSet) i q :
  decorations_of s i = [Decoration_widget q {| id := i |}] →
  (0 ≤ q ≤ 1000000000)%Z →
  placeholders s i = [Decoration_widget q {| id := i |}].
Proof.
  intros Hd Hq. rewrite placeholders_visible, Hd. cbn [List.filter].
  by rewrite visible_widget.
Qed.

Lemma payload_apply_other tr data h i :
  leaves_alone tr i →
  deref (apply tr data h).2 (payloads (apply tr data h).1) !! i
  = deref h (payloads data) !! i.
Proof.
  intros Hother. rewrite apply_payloads.
  destruct (getMeta tr) as [[j v p|j]|] eqn:E.
  - rewrite (apply_add _ _ _ _ _ _ E). cbn [snd].
    apply deref_insert_lookup_ne. by apply (Hother _ E).
  - rewrite (apply_remove _ _ _ _ E). cbn [snd].
    apply deref_delete_lookup_ne. by apply (Hother _ E).
  - by rewrite (apply_none _ _ _ E).
Qed.

End other_identifiers.

(** ** Invariants of a session *)

Section session.
Implicit Types (tr : Transaction) (data : UploadPlaceholderPluginData).
Implicit Types (h : heap) (i j : string) (trs : list Transaction).

Lemma init_eq h :
  init h = ({| set := DecorationSet_empty; payloads := length h |}, h ++ [∅]).
Proof. reflexivity. Qed.

Lemma init_allocated h : allocated (init h).2 (init h).1.
Proof.
  rewrite init_eq. unfold allocated. cbn [fst snd payloads].
  rewrite length_app. simpl. lia.
Qed.

Lemma init_deref h : deref (init h).2 (payloads (init h).1) = ∅.
Proof.
  rewrite init_eq. cbn [fst snd payloads]. unfold deref.
  by rewrite lookup_app_r, Nat.sub_diag.
Qed.

Lemma run_eq trs h : run trs h = applyAll trs (init h).1 (init h).2.
Proof. reflexivity. Qed.

Lemma applyAll_cons tr trs data h :
  applyAll (tr :: trs) data h
  = applyAll trs (apply tr data h).1 (apply tr data h).2.
Proof.
  cbn [applyAll]. unfold mbind, Eff_bind. by destruct (apply tr data h).
Qed.

Lemma keepsAll_cons tr trs data h :
  keepsAll (tr :: trs) data h
  = keeps tr data && keepsAll trs (apply tr data h).1 (apply tr data h).2.
Proof. cbn [keepsAll]. by destruct (apply tr data h). Qed.

Lemma regularAll_cons tr trs data h :
  regularAll (tr :: trs) data h
  = keeps tr data && adds_fresh tr data h
    && regularAll trs (apply tr data h).1 (apply tr data h).2.
Proof. cbn [regularAll]. by destruct (apply tr data h). Qed.

Lemma visibleAll_cons tr trs data h :
  visibleAll (tr :: trs) data h
  = all_visible (set (apply tr data h).1)
    && visibleAll trs (apply tr data h).1 (apply tr data h).2.
Proof. cbn [visibleAll]. by destruct (apply tr data h). Qed.

Lemma applyAll_payloads trs data h :
  payloads (applyAll trs data h).1 = payloads data.
Proof.
  revert data h. induction trs as [|tr trs IH]; intros data h; [done|].
  by rewrite applyAll_cons, IH, apply_payloads.
Qed.

Lemma applyAll_allocated trs data h :
  allocated h data → allocated (applyAll trs data h).2 (applyAll trs data h).1.
Proof.
  revert data h. induction trs as [|tr trs IH]; intros data h Ha; [done|].
  rewrite applyAll_cons. by apply IH, apply_allocated.
Qed.

Lemma run_allocated trs h : allocated (run trs h).2 (run trs h).1.
Proof. rewrite run_eq. apply applyAll_allocated, init_allocated. Qed.

(** The decorations of the state a session ends in lie in the range of
    [find] when they did after every transaction. *)
Lemma visibleAll_final trs data h :
  all_visible (set data) = true → visibleAll trs data h = true →
  all_visible (set (applyAll trs data h).1) = true.
Proof.
  revert data h. induction trs as [|tr trs IH]; intros data h Hv Hall; [done|].
  rewrite visibleAll_cons in Hall. apply andb_prop in Hall as [Hv1 Hall].
  rewrite applyAll_cons. by apply IH.
Qed.

Lemma bounded_final trs h0 :
  bounded trs h0 = true → all_visible (set (run trs h0).1) = true.
Proof. intros Hb. rewrite run_eq. by apply visibleAll_final. Qed.

Lemma apply_decorations_have_payloads tr data h :
  all_visible (set (apply tr data h).1) = true →
  decorations_have_payloads h data →
  decorations_have_payloads (apply tr data h).2 (apply tr data h).1.
Proof.
  intros Hv [Ha Hinv]. split; [by apply apply_allocated|].
  intros i Hdec. unfold has_payload. rewrite payload_apply by done.
  apply has_decoration_decorations_of in Hdec.
  assert (omap (Decoration_map (mapping tr)) (decorations_of (set data) i) ≠ []
          → is_Some (deref h (payloads data) !! i)) as Hold.
  { intros Hne. apply Hinv, has_decoration_decorations_of.
    intros Hnil. by rewrite Hnil in Hne. }
  destruct (getMeta tr) as [[j v p|j]|] eqn:E.
  - rewrite (Permutation_nil_iff _ _ (decorations_of_apply tr data h i)), E
      in Hdec.
    destruct (String.eqb j i); [by eexists|].
    rewrite app_nil_r in Hdec. by apply Hold.
  - destruct (String.eqb j i) eqn:Ej.
    + apply String.eqb_eq in Ej as ->.
      by rewrite decorations_of_apply_remove_visible in Hdec.
    + rewrite (Permutation_nil_iff _ _ (decorations_of_apply tr data h i)),
        E, Ej in Hdec. by apply Hold.
  - rewrite (Permutation_nil_iff _ _ (decorations_of_apply tr data h i)), E
      in Hdec. by apply Hold.
Qed.

Lemma applyAll_decorations_have_payloads trs data h :
  visibleAll trs data h = true →
  decorations_have_payloads h data →
  decorations_have_payloads (applyAll trs data h).2 (applyAll trs data h).1.
Proof.
  revert data h. induction trs as [|tr trs IH]; intros data h Hall Hinv; [done|].
  rewrite visibleAll_cons in Hall. apply andb_prop in Hall as [Hv Hall].
  rewrite applyAll_cons. apply IH; [done|].
  by apply apply_decorations_have_payloads.
Qed.

Lemma init_decorations_have_payloads h :
  decorations_have_payloads (init h).2 (init h).1.
Proof.
  split; [apply init_allocated|].
  intros i (d & Hd & _). rewrite init_eq in Hd. by apply elem_of_nil in Hd.
Qed.

(** Every identifier with a payload entry has a decoration, as long as the
    mapping of the transaction drops no decoration. *)
Lemma apply_payloads_have_decorations tr data h :
  allocated h data → keeps tr data = true →
  (∀ i, has_payload h data i → has_decoration data i) →
  ∀ i, has_payload (apply tr data h).2 (apply tr data h).1 i →
       has_decoration (apply tr data h).1 i.
Proof.
  intros Ha Hk Hinv i. unfold has_payload. rewrite payload_apply by done.
  intros Hpay. apply has_decoration_decorations_of.
  assert (is_Some (deref h (payloads data) !! i) →
          omap (Decoration_map (mapping tr)) (decorations_of (set data) i) ≠ [])
    as Hold.
  { intros Hsome Hmap. apply Hinv, has_decoration_decorations_of in Hsome.
    apply (f_equal length) in Hmap.
    rewrite (keeps_omap_length tr data) in Hmap
      by (done || apply decorations_of_subseteq).
    by destruct (decorations_of (set data) i). }
  destruct (getMeta tr) as [[j v p|j]|] eqn:E.
  - rewrite (Permutation_nil_iff _ _ (decorations_of_apply tr data h i)), E.
    intros Hnil. destruct (String.eqb j i).
    + by destruct (omap _ _).
    + rewrite app_nil_r in Hnil. by apply Hold.
  - destruct (String.eqb j i) eqn:Ej; [by destruct Hpay|].
    rewrite (Permutation_nil_iff _ _ (decorations_of_apply tr data h i)), E, Ej.
    by apply Hold.
  - rewrite (Permutation_nil_iff _ _ (decorations_of_apply tr data h i)), E.
    by apply Hold.
Qed.

Lemma applyAll_in_sync trs data h :
  allocated h data → keepsAll trs data h = true →
  visibleAll trs data h = true → in_sync h data →
  in_sync (applyAll trs data h).2 (applyAll trs data h).1.
Proof.
  revert data h.
  induction trs as [|tr trs IH]; intros data h Ha Hk Hall Hs; [done|].
  rewrite keepsAll_cons in Hk. apply andb_prop in Hk as [Hk1 Hk2].
  rewrite visibleAll_cons in Hall. apply andb_prop in Hall as [Hv Hall].
  rewrite applyAll_cons. apply IH; [by apply apply_allocated | done..|].
  intros i. split.
  - apply apply_decorations_have_payloads; [done|].
    split; [done|]. intros j. apply Hs.
  - apply apply_payloads_have_decorations; [done..|]. intros j. apply Hs.
Qed.

End session.

Section counting.
Implicit Types (tr : Transaction) (data : UploadPlaceholderPluginData).
Implicit Types (h : heap) (i j : string) (trs : list Transaction).

Lemma Map_has_apply tr data h i :
  allocated h data →
  Map_has (apply tr data h).2 (payloads (apply tr data h).1) i
  = match getMeta tr with
    | Some (AddPlaceholderAction j v p) =>
        if String.eqb j i then true else Map_has h (payloads data) i
    | Some (RemovePlaceholderAction j) =>
        if String.eqb j i then false else Map_has h (payloads data) i
    | None => Map_has h (payloads data) i
    end.
Proof.
  intros Ha. unfold Map_has. rewrite payload_apply by done.
  destruct (getMeta tr) as [[j v p|j]|]; [| |done].
  - destruct (String.eqb j i); [|done]. by apply bool_decide_eq_true.
  - destruct (String.eqb j i); [|done].
    apply bool_decide_eq_false. by intros [? ?].
Qed.

Lemma apply_one_each tr data h :
  allocated h data → keeps tr data = true → adds_fresh tr data h = true →
  all_visible (set (apply tr data h).1) = true →
  one_each h data → one_each (apply tr data h).2 (apply tr data h).1.
Proof.
  intros Ha Hk Hf Hv Hinv i.
  rewrite Map_has_apply by done.
  pose proof (keeps_omap_length tr data (decorations_of (set data) i) Hk
                (decorations_of_subseteq _ _)) as Hlen.
  unfold adds_fresh in Hf.
  destruct (getMeta tr) as [[j v p|j]|] eqn:E.
  - rewrite (Permutation_length (decorations_of_apply tr data h i)), E.
    rewrite length_app, Hlen, Hinv.
    destruct (String.eqb j i) eqn:Ej; simpl.
    + apply String.eqb_eq in Ej as ->.
      apply negb_true_iff in Hf. by rewrite Hf.
    + lia.
  - destruct (String.eqb j i) eqn:Ej.
    + apply String.eqb_eq in Ej as ->.
      by rewrite decorations_of_apply_remove_visible.
    + rewrite (Permutation_length (decorations_of_apply tr data h i)), E, Ej.
      by rewrite Hlen, Hinv.
  - rewrite (Permutation_length (decorations_of_apply tr data h i)), E.
    by rewrite Hlen, Hinv.
Qed.

Lemma applyAll_one_each trs data h :
  allocated h data → regularAll trs data h = true →
  visibleAll trs data h = true → one_each h data →
  one_each (applyAll trs data h).2 (applyAll trs data h).1.
Proof.
  revert data h.
  induction trs as [|tr trs IH]; intros data h Ha Hr Hall Hinv; [done|].
  rewrite regularAll_cons in Hr.
  apply andb_prop in Hr as [Hr Hr3]. apply andb_prop in Hr as [Hr1 Hr2].
  rewrite visibleAll_cons in Hall. apply andb_prop in Hall as [Hv Hall].
  rewrite applyAll_cons.
  apply IH; [by apply apply_allocated | done | done | by apply apply_one_each].
Qed.

Lemma init_one_each h : one_each (init h).2 (init h).1.
Proof.
  intros i. unfold Map_has. rewrite init_deref, lookup_empty.
  rewrite bool_decide_eq_false_2 by (by intros [? ?]). done.
Qed.

Lemma apply_absent tr data h i :
  allocated h data → adds i tr = false → absent i h data →
  absent i (apply tr data h).2 (apply tr data h).1.
Proof.
  intros Ha Hadd [Hd Hp]. split.
  - rewrite (Permutation_nil_iff _ _ (decorations_of_apply tr data h i)).
    rewrite Hd. unfold adds in Hadd.
    destruct (getMeta tr) as [[j v p|j]|]; [|by destruct (String.eqb j i)|done].
    by rewrite Hadd.
  - rewrite payload_apply by done. unfold adds in Hadd.
    destruct (getMeta tr) as [[j v p|j]|]; [|by destruct (String.eqb j i)|done].
    by rewrite Hadd.
Qed.

Lemma applyAll_absent trs data h i :
  allocated h data → never_adds i trs = true → absent i h data →
  absent i (applyAll trs data h).2 (applyAll trs data h).1.
Proof.
  revert data h. induction trs as [|tr trs IH]; intros data h Ha Hn Hab; [done|].
  cbn [never_adds forallb] in Hn. apply andb_prop in Hn as [Hn1 Hn2].
  apply negb_true_iff in Hn1. rewrite applyAll_cons.
  apply IH; [by apply apply_allocated | done | by apply apply_absent].
Qed.

Lemma init_absent i h : absent i (init h).2 (init h).1.
Proof. split; [done|]. by rewrite init_deref. Qed.

(** Removing an absent identifier changes neither the set nor the store
    beyond what the mapping of the transaction does. *)
Lemma apply_remove_absent tr data h i :
  getMeta tr = None → absent i h data →
  apply (setUploadPlaceholderAction tr (RemovePlaceholderAction i)) data h
  = apply tr data h.
Proof.
  intros Hnone [Hd Hp].
  rewrite (apply_remove _ _ _ i) by done. rewrite (apply_none tr) by done.
  cbn [setUploadPlaceholderAction mapping].
  assert (placeholders (DecorationSet_map (set data) (mapping tr)) i = [])
    as Hnil.
  { apply decorations_of_nil_placeholders.
    rewrite (Permutation_nil_iff _ _ (decorations_of_map _ _ _)). by rewrite Hd. }
  rewrite Hnil. by rewrite alter_delete_absent.
Qed.

End counting.

(** ** The store across a session *)

Section sessions_and_store.
Implicit Types (tr : Transaction) (data : UploadPlaceholderPluginData).
Implicit Types (h : heap) (i : string) (trs : list Transaction).

(** One transaction does to the entries behind the reference what its
    action says. *)
Lemma deref_apply tr data h :
  allocated h data →
  deref (apply tr data h).2 (payloads (apply tr data h).1)
  = payloads_step (deref h (payloads data)) tr.
Proof.
  intros Ha. rewrite apply_payloads. unfold payloads_step.
  destruct (getMeta tr) as [[j v p|j]|] eqn:E.
  - rewrite (apply_add _ _ _ _ _ _ E). cbn [fst snd].
    by apply deref_alter_eq.
  - rewrite (apply_remove _ _ _ _ E). cbn [fst snd].
    by apply deref_alter_eq.
  - by rewrite (apply_none _ _ _ E).
Qed.

Lemma deref_applyAll trs data h :
  allocated h data →
  deref (applyAll trs data h).2 (payloads (applyAll trs data h).1)
  = payloads_after trs (deref h (payloads data)).
Proof.
  revert data h. induction trs as [|tr trs IH]; intros data h Ha; [done|].
  rewrite applyAll_cons, IH by (by apply apply_allocated).
  by rewrite deref_apply.
Qed.

Lemma deref_run trs h0 :
  deref (run trs h0).2 (payloads (run trs h0).1) = payloads_after trs ∅.
Proof.
  rewrite run_eq, deref_applyAll by apply init_allocated.
  by rewrite init_deref.
Qed.

(** [apply] writes to no [Map] but the one of the state it is given. *)
Lemma deref_apply_other tr data h (l : loc) :
  l ≠ payloads data → deref (apply tr data h).2 l = deref h l.
Proof.
  intros Hne. destruct (getMeta tr) as [[j v p|j]|] eqn:E.
  - rewrite (apply_add _ _ _ _ _ _ E). cbn [snd]. by apply deref_alter_ne.
  - rewrite (apply_remove _ _ _ _ E). cbn [snd]. by apply deref_alter_ne.
  - by rewrite (apply_none _ _ _ E).
Qed.

Lemma deref_applyAll_other trs data h (l : loc) :
  l ≠ payloads data → deref (applyAll trs data h).2 l = deref h l.
Proof.
  revert data h. induction trs as [|tr trs IH]; intros data h Hne; [done|].
  rewrite applyAll_cons, IH by (by rewrite apply_payloads).
  by apply deref_apply_other.
Qed.

(** Whether the entries the actions build hold an identifier is what the
    actions that name it say. *)
Lemma payloads_after_registers trs (m : gmap string any) i :
  bool_decide (is_Some (payloads_after trs m !! i))
  = foldl (registers i) (bool_decide (is_Some (m !! i))) trs.
Proof.
  revert m. induction trs as [|tr trs IH]; intros m; [done|].
  cbn [foldl payloads_after]. unfold payloads_after in IH. rewrite IH.
  f_equal. unfold payloads_step, registers.
  destruct (getMeta tr) as [[j v p|j]|]; [| |done].
  - destruct (String.eqb j i) eqn:Ej.
    + apply String.eqb_eq in Ej as ->. rewrite lookup_insert_eq.
      by apply bool_decide_eq_true.
    + apply String.eqb_neq in Ej. by rewrite lookup_insert_ne.
  - destruct (String.eqb j i) eqn:Ej.
    + apply String.eqb_eq in Ej as ->. rewrite lookup_delete_eq.
      apply bool_decide_eq_false. by intros [? ?].
    + apply String.eqb_neq in Ej. by rewrite lookup_delete_ne.
Qed.

Lemma decorations_of_applyAll_nil trs data h i :
  forallb (λ tr, negb (names i tr)) trs = true →
  decorations_of (set data) i = [] →
  decorations_of (set (applyAll trs data h).1) i = [].
Proof.
  revert data h. induction trs as [|tr trs IH]; intros data h Hall Hnil; [done|].
  cbn [forallb] in Hall. apply andb_prop in Hall as [Hn Hall].
  apply negb_true_iff, names_false_leaves_alone in Hn.
  rewrite applyAll_cons. apply IH; [done|].
  by apply decorations_of_apply_other_nil.
Qed.

Lemma decorations_of_applyAll_track trs data h i p :
  forallb (λ tr, negb (names i tr)) trs = true →
  decorations_of (set data) i = [Decoration_widget p {| id := i |}] →
  decorations_of (set (applyAll trs data h).1) i
  = match track trs p with
    | Some q => [Decoration_widget q {| id := i |}]
    | None => []
    end.
Proof.
  revert data h p.
  induction trs as [|tr trs IH]; intros data h p Hall Hp; [done|].
  pose proof Hall as Hall'.
  cbn [forallb] in Hall. apply andb_prop in Hall as [Hn Hall].
  apply negb_true_iff, names_false_leaves_alone in Hn.
  rewrite applyAll_cons. cbn [track].
  destruct (deleted (Mapping_mapResult (mapping tr) p 1)) eqn:Hdel.
  - apply decorations_of_applyAll_nil; [done|].
    apply (Permutation_nil_iff _ _ (decorations_of_apply_other tr data h i Hn)).
    rewrite Hp, omap_cons_Decoration_map. unfold Decoration_map.
    cbn [from Decoration_widget]. by rewrite Hdel.
  - apply IH; [done|].
    apply decorations_of_apply_other_single with (p := p); [done| |done].
    destruct (Mapping_mapResult (mapping tr) p 1) as [q del].
    cbn [deleted pos] in *. by rewrite Hdel.
Qed.

End sessions_and_store.

(** ** Facts about editor states and the queries *)

Section queries.
Implicit Types (tr : Transaction) (data : UploadPlaceholderPluginData).
Implicit Types (h : heap) (i j : string) (state : EditorState).

Lemma EditorState_apply_Some tr state data h :
  key_getState state = Some data →
  EditorState_apply tr state h
  = ({| key_getState := Some (apply tr data h).1 |}, (apply tr data h).2).
Proof.
  unfold EditorState_apply. intros ->.
  unfold mbind, Eff_bind. by destruct (apply tr data h).
Qed.


Lemma findUploadPlaceholderPos_Some state data i :
  key_getState state = Some data →
  findUploadPlaceholderPos state i
  = from <$> head (placeholders (set data) i).
Proof. unfold findUploadPlaceholderPos. by intros ->. Qed.


Lemma findUploadPlaceholderPos_None_iff state data i :
  key_getState state = Some data →
  findUploadPlaceholderPos state i = None ↔ placeholders (set data) i = [].
Proof.
  intros Hs. rewrite (findUploadPlaceholderPos_Some _ _ _ Hs).
  by destruct (placeholders (set data) i).
Qed.

(** In a state whose decorations lie in the range of [find], an identifier
    without a position has no decoration. *)
Lemma not_found_no_decoration state data i :
  key_getState state = Some data →
  all_visible (set data) = true →
  findUploadPlaceholderPos state i = None →
  decorations_of (set data) i = [].
Proof.
  intros Hs Hv Hnone. rewrite <- all_visible_placeholders by done.
  by apply (findUploadPlaceholderPos_None_iff _ _ _ Hs).
Qed.

(** The position found for an identifier whose only decoration lies in the
    range of [find]. *)
Lemma findUploadPlaceholderPos_single state data i q :
  key_getState state = Some data →
  decorations_of (set data) i = [Decoration_widget q {| id := i |}] →
  (0 ≤ q ≤ 1000000000)%Z →
  findUploadPlaceholderPos state i = Some q.
Proof.
  intros Hs Hd Hq. rewrite (findUploadPlaceholderPos_Some _ _ _ Hs).
  by rewrite (placeholders_single _ _ q).
Qed.

Lemma Mapping_mapResult_of (maps : list StepMap) (p a : Z) :
  Mapping_mapResult (Mapping_of maps) p a = StepMaps_map maps p a false.
Proof. by destruct maps. Qed.

(** Inserting [n] tokens at [q] moves a widget at or after [q] by [n]. *)
Lemma Mapping_mapResult_insert (q n p : Z) :
  (q ≤ p)%Z →
  Mapping_mapResult (Mapping_of [[(q, 0%Z, n)]]) p 1
  = {| pos := p + n; deleted := false |}.
Proof.
  intros Hle. rewrite Mapping_mapResult_of.
  unfold StepMaps_map, StepMap_mapResult. cbn [StepMap_map].
  destruct (q >? p)%Z eqn:E1; [lia|].
  rewrite Z.add_0_r. destruct (p <=? q)%Z eqn:E2.
  - assert (p = q) as -> by lia.
    cbn. by rewrite Z.eqb_refl.
  - cbn. f_equal; lia.
Qed.

End queries.

(** ** The claims *)

(** C1. For every transaction and every plugin state, [apply] first maps the
    decorations of the state through the mapping of the transaction (each
    decoration of the remapped set is the image of a decoration of the old
    set), and then applies at most one intent to the remapped set: with no
    action the result is the remapped set and the store is untouched; an add
    puts one widget at the position the action names, not a mapped one, next
    to the remapped decorations and sets the payload; a remove takes out of
    the remapped set the decorations of the identifier that [find] yields,
    those at positions from 0 to 1e9, and deletes the payload. The payload
    reference stays the same. *)
Theorem apply_remaps_then_applies_action
    (tr : Transaction) (data : UploadPlaceholderPluginData) (h : heap) :
  let remapped := DecorationSet_map (set data) (mapping tr) in
  let data' := (apply tr data h).1 in
  let h' := (apply tr data h).2 in
  (∀ d, d ∈ remapped ↔
        ∃ d0, d0 ∈ set data ∧ Decoration_map (mapping tr) d0 = Some d)
  ∧ payloads data' = payloads data
  ∧ match getMeta tr with
    | None => set data' = remapped ∧ h' = h
    | Some (AddPlaceholderAction i v p) =>
        (∀ d, d ∈ set data' ↔
              d ∈ remapped ∨ d = Decoration_widget p {| id := i |})
        ∧ h' = alter (insert i v) (payloads data) h
    | Some (RemovePlaceholderAction i) =>
        (∀ d, d ∈ set data' ↔
              d ∈ remapped
              ∧ ¬ (id (spec d) = i ∧ (0 ≤ from d ≤ 1000000000)%Z))
        ∧ h' = alter (delete i) (payloads data) h
    end.
Proof.
  intros remapped data' h'. subst remapped data' h'.
  split; [intros d; apply elem_of_DecorationSet_map|].
  split; [apply apply_payloads|].
  destruct (getMeta tr) as [[i v p|i]|] eqn:E.
  - rewrite (apply_add _ _ _ _ _ _ E). cbn [fst snd set]. split; [|done].
    intros d. rewrite DecorationSet_add_Permutation, elem_of_app.
    by rewrite list_elem_of_singleton.
  - rewrite (apply_remove _ _ _ _ E). cbn [fst snd set]. split; [|done].
    intros d. rewrite elem_of_DecorationSet_remove. by rewrite visible_iff.
  - by rewrite (apply_none _ _ _ E).
Qed.

(** C2, as stated, fails. After [dropped_session] the identifier has a
    payload entry and no decoration, the host having dropped the widget whose
    position was deleted. After [hidden_remove_session] the identifier has a
    decoration and no payload entry: [find] does not yield a widget at a
    position below 0, so the remove deleted the payload only. *)
Lemma dropped_session_out_of_sync :
  (let data := (run dropped_session []).1 in
   let h := (run dropped_session []).2 in
   has_payload h data "A" ∧ ¬ has_decoration data "A" ∧ ¬ in_sync h data)
  ∧ (let data := (run hidden_remove_session []).1 in
     let h := (run hidden_remove_session []).2 in
     has_decoration data "N" ∧ ¬ has_payload h data "N" ∧ ¬ in_sync h data).
Proof.
  split.
  - assert (has_payload (run dropped_session []).2
              (run dropped_session []).1 "A") as Hp by (vm_compute; eauto).
    assert (¬ has_decoration (run dropped_session []).1 "A") as Hd.
    { intros (d & Hd & _). vm_compute in Hd. by apply elem_of_nil in Hd. }
    repeat split; [done..|]. intros Hs. by apply Hd, Hs.
  - assert (has_decoration (run hidden_remove_session []).1 "N") as Hd.
    { exists {| from := -1; spec := {| id := "N" |} |}.
      split; [|reflexivity]. vm_compute. left. }
    assert (¬ has_payload (run hidden_remove_session []).2
              (run hidden_remove_session []).1 "N") as Hp.
    { vm_compute. by intros [? ?]. }
    repeat split; [done..|]. intros Hs. by apply Hp, Hs.
Qed.

(** C2, amended. In every state reached by a session throughout which the
    decorations stay at positions from 0 to 1e9, an identifier that has a
    decoration has a payload entry; and when in addition no transaction of
    the session had a mapping that dropped a decoration, the converse holds
    too: the decoration set and the payload map hold the same identifiers. *)
Theorem decorations_in_sync_with_payloads
    (trs : list Transaction) (h0 : heap) :
  bounded trs h0 = true →
  let data := (run trs h0).1 in
  let h := (run trs h0).2 in
  (∀ i, has_decoration data i → has_payload h data i)
  ∧ (lossless trs h0 = true → in_sync h data).
Proof.
  intros Hb data h. split.
  - subst data h. rewrite run_eq.
    apply applyAll_decorations_have_payloads;
      [done | apply init_decorations_have_payloads].
  - intros Hl. subst data h. rewrite run_eq.
    apply applyAll_in_sync; [apply init_allocated | done | done |].
    intros i. split.
    + intros (d & Hd & _). rewrite init_eq in Hd. by apply elem_of_nil in Hd.
    + unfold has_payload. rewrite init_deref, lookup_empty. by intros [? ?].
Qed.

Lemma decorations_in_sync_with_payloads_witness :
  bounded two_uploads_session [] = true
  ∧ lossless two_uploads_session [] = true
  ∧ in_sync (run two_uploads_session []).2 (run two_uploads_session []).1.
Proof.
  split; [reflexivity|]. split; [reflexivity|].
  apply (decorations_in_sync_with_payloads two_uploads_session []);
    reflexivity.
Defined.

(** C3, as stated, fails in three ways. After [double_add_session] the
    registered identifier has two decorations that [find] yields, with the
    payload of the second add. After [dropped_session] and after
    [hidden_add_session] the registered identifier has none: the widget was
    dropped by a mapping, or it sits at a position [find] does not search. *)
Lemma double_add_two_placeholders :
  (let data := (run double_add_session []).1 in
   let h := (run double_add_session []).2 in
   has_payload h data "A"
   ∧ length (placeholders (set data) "A") = 2%nat
   ∧ findUploadPlaceholderPayload h {| key_getState := Some data |} "A"
     = JString "second")
  ∧ (let data := (run dropped_session []).1 in
     let h := (run dropped_session []).2 in
     has_payload h data "A"
     ∧ length (placeholders (set data) "A") = 0%nat)
  ∧ (let data := (run hidden_add_session []).1 in
     let h := (run hidden_add_session []).2 in
     has_payload h data "N"
     ∧ length (placeholders (set data) "N") = 0%nat
     ∧ findUploadPlaceholderPos {| key_getState := Some data |} "N" = None).
Proof. repeat split; vm_compute; eauto. Qed.

(** C3, amended. In every state reached by a session throughout which the
    decorations stay at positions from 0 to 1e9, an identifier without a
    payload entry has no decoration that [find] yields; when in addition no
    mapping of the session dropped a decoration and no add named an
    identifier that was registered at that moment, every identifier with a
    payload entry has exactly one. A remove action leaves the identifier it
    names with no payload entry and with no decoration that [find] yields,
    in every state. *)
Theorem registered_identifier_has_one_placeholder
    (trs : list Transaction) (h0 : heap) :
  let data := (run trs h0).1 in
  let h := (run trs h0).2 in
  (bounded trs h0 = true →
   (regular trs h0 = true →
    ∀ i, has_payload h data i → length (placeholders (set data) i) = 1%nat)
   ∧ (∀ i, ¬ has_payload h data i → placeholders (set data) i = []))
  ∧ (∀ tr i, getMeta tr = Some (RemovePlaceholderAction i) →
        placeholders (set (apply tr data h).1) i = []
        ∧ ¬ has_payload (apply tr data h).2 (apply tr data h).1 i).
Proof.
  intros data h. split.
  - intros Hb. pose proof (bounded_final _ _ Hb) as Hv. fold data in Hv. split.
    + intros Hr i Hp.
      assert (one_each h data) as Hone.
      { subst data h. rewrite run_eq.
        apply applyAll_one_each;
          [apply init_allocated | done | done | apply init_one_each]. }
      rewrite all_visible_placeholders by done.
      rewrite Hone. by rewrite (proj2 (Map_has_true _ _ _) Hp).
    + intros i Hp. apply decorations_of_nil_placeholders.
      destruct (decorations_of (set data) i) as [|d l] eqn:E; [done|].
      destruct Hp.
      assert (decorations_have_payloads h data) as [_ Hdp].
      { subst data h. rewrite run_eq.
        apply applyAll_decorations_have_payloads;
          [done | apply init_decorations_have_payloads]. }
      apply Hdp, has_decoration_decorations_of. by rewrite E.
  - intros tr i E. split.
    + by apply placeholders_apply_remove_same.
    + unfold has_payload. rewrite (payload_apply_remove _ _ _ _ E).
      by intros [? ?].
Qed.

Lemma registered_identifier_has_one_placeholder_witness :
  bounded two_uploads_session [] = true
  ∧ regular two_uploads_session [] = true
  ∧ length (placeholders (set (run two_uploads_session []).1) "B") = 1%nat
  ∧ placeholders (set (run two_uploads_session []).1) "A" = [].
Proof.
  split; [reflexivity|]. split; [reflexivity|].
  destruct (registered_identifier_has_one_placeholder two_uploads_session [])
    as [Hb _].
  destruct Hb as [Hone Hnone]; [reflexivity|].
  split.
  - apply Hone; [reflexivity|]. vm_compute. eauto.
  - apply Hnone. vm_compute. by intros [? ?].
Defined.



(** C5. After every session, [hasUploadingFile] answers true exactly when
    some identifier is currently registered, that is, when for some
    identifier the last action of the session that names it is an add; and
    it answers false on the state [EditorState.create] yields. *)
Theorem hasUploadingFile_iff_registered :
  (∀ trs h0,
      hasUploadingFile (run trs h0).2
        {| key_getState := Some (run trs h0).1 |} = true
      ↔ ∃ i, registered_after trs i = true)
  ∧ (∀ h0, hasUploadingFile (EditorState_create h0).2
             (EditorState_create h0).1 = false).
Proof.
  assert (∀ trs h0,
            hasUploadingFile (run trs h0).2
              {| key_getState := Some (run trs h0).1 |} = true
            ↔ ∃ i, registered_after trs i = true) as Hiff.
  { intros trs h0. unfold hasUploadingFile. cbn [key_getState].
    rewrite bool_decide_eq_true, Map_size_pos, deref_run.
    assert (∀ i, is_Some (payloads_after trs ∅ !! i)
                 ↔ registered_after trs i = true) as Hreg.
    { intros i. pose proof (payloads_after_registers trs ∅ i) as Hr.
      rewrite lookup_empty in Hr.
      rewrite (bool_decide_eq_false_2 (is_Some None)) in Hr
        by (by intros [? ?]).
      unfold registered_after. rewrite <- Hr. symmetry.
      apply bool_decide_eq_true. }
    split; intros [i Hi]; exists i; by apply Hreg. }
  split; [done|].
  intros h0. apply not_true_is_false. intros Htrue.
  apply (Hiff [] h0) in Htrue as [i Hi]. done.
Qed.

Lemma hasUploadingFile_iff_registered_witness :
  registered_after two_uploads_session "B" = true
  ∧ registered_after two_uploads_session "A" = false
  ∧ hasUploadingFile (run two_uploads_session []).2
      {| key_getState := Some (run two_uploads_session []).1 |} = true
  ∧ hasUploadingFile (EditorState_create []).2 (EditorState_create []).1
    = false.
Proof.
  destruct hasUploadingFile_iff_registered as [Hiff Hinit].
  split; [reflexivity|]. split; [reflexivity|]. split; [|apply Hinit].
  apply Hiff. exists "B". reflexivity.
Defined.

(** C6. After an add of identifier [A] at position 5 to a state in which [A]
    has no placeholder and whose decorations lie at positions from 0 to 1e9,
    a transaction that inserts 3 tokens at a position [q] up to 5, and whose
    action, if any, names another identifier, leaves [A] at position 8. *)
Theorem insert_before_shifts_placeholder
    (state : EditorState) (data : UploadPlaceholderPluginData) (h : heap)
    (tr1 tr2 : Transaction) (A : string) (v : any) (q : Z) :
  key_getState state = Some data →
  all_visible (set data) = true →
  findUploadPlaceholderPos state A = None →
  getMeta tr1 = Some (AddPlaceholderAction A v 5) →
  mapping tr2 = Mapping_of [[(q, 0, 3)%Z]] →
  (q ≤ 5)%Z →
  (∀ a, getMeta tr2 = Some a → action_id a ≠ A) →
  let s1 := EditorState_apply tr1 state h in
  let s2 := EditorState_apply tr2 s1.1 s1.2 in
  findUploadPlaceholderPos s1.1 A = Some 5%Z
  ∧ findUploadPlaceholderPos s2.1 A = Some 8%Z.
Proof.
  intros Hs Hv Hnone E1 Em Hq Hother s1 s2. subst s2 s1.
  rewrite (EditorState_apply_Some tr1 _ _ _ Hs). cbn [fst snd].
  rewrite (EditorState_apply_Some tr2 _ (apply tr1 data h).1) by done.
  cbn [fst snd].
  assert (decorations_of (set data) A = []) as Hnil
    by (by eapply not_found_no_decoration).
  assert (decorations_of (set (apply tr1 data h).1) A
          = [Decoration_widget 5 {| id := A |}]) as H1
    by (by eapply decorations_of_apply_add_new).
  split.
  - by apply (findUploadPlaceholderPos_single _ (apply tr1 data h).1 _ 5).
  - apply (findUploadPlaceholderPos_single _
             (apply tr2 (apply tr1 data h).1 (apply tr1 data h).2).1 _ 8);
      [done| |done].
    apply decorations_of_apply_other_single with (p := 5%Z); [done| |done].
    rewrite Em. by rewrite Mapping_mapResult_insert.
Qed.

Lemma insert_before_shifts_placeholder_witness :
  let tr1 := {| mapping := NoMaps;
                getMeta := Some (AddPlaceholderAction "A" (JNumber 1) 5) |} in
  let tr2 := {| mapping := Mapping_of [[(2, 0, 3)%Z]]; getMeta := None |} in
  let s0 := EditorState_create [] in
  let s1 := EditorState_apply tr1 s0.1 s0.2 in
  let s2 := EditorState_apply tr2 s1.1 s1.2 in
  findUploadPlaceholderPos s1.1 "A" = Some 5%Z
  ∧ findUploadPlaceholderPos s2.1 "A" = Some 8%Z.
Proof.
  apply (insert_before_shifts_placeholder (EditorState_create []).1
           (init []).1 (init []).2 _ _ "A" (JNumber 1) 2).
  - reflexivity.
  - reflexivity.
  - reflexivity.
  - reflexivity.
  - reflexivity.
  - lia.
  - intros a Ha. simpl in Ha. discriminate Ha.
Defined.

(** C7. In every state, for an identifier that has no decoration and no
    payload entry, [findUploadPlaceholderPos] and
    [findUploadPlaceholderPayload] answer with the absent value; both are
    total functions, so neither query fails. *)
Theorem queries_absent_for_unknown_identifier
    (h : heap) (state : EditorState) (i : string) :
  (∀ data, key_getState state = Some data → ¬ has_decoration data i) →
  ¬ registered h state i →
  findUploadPlaceholderPos state i = None
  ∧ findUploadPlaceholderPayload h state i = undefined.
Proof.
  intros Hd Hp. unfold findUploadPlaceholderPos, findUploadPlaceholderPayload.
  destruct (key_getState state) as [data|] eqn:Hs; [|done]. split.
  - specialize (Hd data eq_refl).
    rewrite has_decoration_decorations_of in Hd.
    fold (placeholders (set data) i).
    rewrite decorations_of_nil_placeholders; [done|].
    destruct (decorations_of (set data) i); [done | by destruct Hd].
  - apply Map_get_absent.
    destruct (deref h (payloads data) !! i) as [x|] eqn:E; [|done].
    destruct Hp. exists data. split; [done|]. unfold has_payload. by rewrite E.
Qed.

Lemma queries_absent_for_unknown_identifier_witness :
  let state := {| key_getState := Some (run two_uploads_session []).1 |} in
  let h := (run two_uploads_session []).2 in
  findUploadPlaceholderPos state "C" = None
  ∧ findUploadPlaceholderPayload h state "C" = undefined.
Proof.
  apply queries_absent_for_unknown_identifier.
  - intros data [= <-] (d & Hd & Hid). vm_compute in Hd.
    apply list_elem_of_In in Hd. simpl in Hd.
    destruct Hd as [<-|[]]. discriminate Hid.
  - intros (data & [= <-] & Hp). vm_compute in Hp. by destruct Hp.
Defined.

(** C8. A remove action for an identifier that no transaction of the session
    added changes nothing: the plugin state and the store it yields are those
    of the same transaction without an action. *)
Theorem remove_of_never_added_is_noop
    (trs : list Transaction) (tr : Transaction) (i : string) (h0 : heap) :
  never_adds i trs = true →
  getMeta tr = None →
  let data := (run trs h0).1 in
  let h := (run trs h0).2 in
  apply (setUploadPlaceholderAction tr (RemovePlaceholderAction i)) data h
  = apply tr data h.
Proof.
  intros Hn Hnone data h. apply apply_remove_absent; [done|].
  subst data h. rewrite run_eq.
  apply applyAll_absent; [apply init_allocated | done | apply init_absent].
Qed.

Lemma remove_of_never_added_is_noop_witness :
  let tr := {| mapping := Mapping_of [[(1, 0, 4)%Z]]; getMeta := None |} in
  let data := (run two_uploads_session []).1 in
  let h := (run two_uploads_session []).2 in
  apply (setUploadPlaceholderAction tr (RemovePlaceholderAction "C")) data h
  = apply tr data h.
Proof.
  apply (remove_of_never_added_is_noop two_uploads_session _ "C" []).
  - reflexivity.
  - reflexivity.
Defined.

(** C9. Two different identifiers added at the same position, a position
    from 0 to 1e9, to a state in which neither has a placeholder and whose
    decorations lie at positions from 0 to 1e9, are both found at that
    position, each with its own payload; removing either one leaves the other
    with its position (mapped by the removing transaction to a position from
    0 to 1e9) and its payload. *)
Theorem same_position_placeholders_are_independent
    (state : EditorState) (data : UploadPlaceholderPluginData) (h : heap)
    (tr1 tr2 trA trB : Transaction) (A B : string) (va vb : any)
    (p qa qb : Z) :
  key_getState state = Some data →
  allocated h data →
  all_visible (set data) = true →
  findUploadPlaceholderPos state A = None →
  findUploadPlaceholderPos state B = None →
  A ≠ B →
  (0 ≤ p ≤ 1000000000)%Z →
  (0 ≤ qa ≤ 1000000000)%Z →
  (0 ≤ qb ≤ 1000000000)%Z →
  getMeta tr1 = Some (AddPlaceholderAction A va p) →
  getMeta tr2 = Some (AddPlaceholderAction B vb p) →
  Mapping_mapResult (mapping tr2) p 1 = {| pos := p; deleted := false |} →
  getMeta trA = Some (RemovePlaceholderAction A) →
  Mapping_mapResult (mapping trA) p 1 = {| pos := qa; deleted := false |} →
  getMeta trB = Some (RemovePlaceholderAction B) →
  Mapping_mapResult (mapping trB) p 1 = {| pos := qb; deleted := false |} →
  let s1 := EditorState_apply tr1 state h in
  let s2 := EditorState_apply tr2 s1.1 s1.2 in
  let sA := EditorState_apply trA s2.1 s2.2 in
  let sB := EditorState_apply trB s2.1 s2.2 in
  (findUploadPlaceholderPos s2.1 A = Some p
   ∧ findUploadPlaceholderPos s2.1 B = Some p
   ∧ findUploadPlaceholderPayload s2.2 s2.1 A = va
   ∧ findUploadPlaceholderPayload s2.2 s2.1 B = vb)
  ∧ (findUploadPlaceholderPos sA.1 A = None
     ∧ findUploadPlaceholderPayload sA.2 sA.1 A = undefined
     ∧ findUploadPlaceholderPos sA.1 B = Some qa
     ∧ findUploadPlaceholderPayload sA.2 sA.1 B = vb)
  ∧ (findUploadPlaceholderPos sB.1 B = None
     ∧ findUploadPlaceholderPayload sB.2 sB.1 B = undefined
     ∧ findUploadPlaceholderPos sB.1 A = Some qb
     ∧ findUploadPlaceholderPayload sB.2 sB.1 A = va).
Proof.
  intros Hs Ha Hv HnA HnB Hne Hp Hqa Hqb E1 E2 Hm2 EA HmA EB HmB s1 s2 sA sB.
  subst sA sB s2 s1.
  rewrite (EditorState_apply_Some tr1 _ _ _ Hs). cbn [fst snd].
  set (d1 := (apply tr1 data h).1). set (h1 := (apply tr1 data h).2).
  rewrite (EditorState_apply_Some tr2 _ d1) by done. cbn [fst snd].
  set (d2 := (apply tr2 d1 h1).1). set (h2 := (apply tr2 d1 h1).2).
  rewrite (EditorState_apply_Some trA _ d2) by done.
  rewrite (EditorState_apply_Some trB _ d2) by done. cbn [fst snd].
  assert (decorations_of (set data) A = []) as NA
    by (by eapply not_found_no_decoration).
  assert (decorations_of (set data) B = []) as NB
    by (by eapply not_found_no_decoration).
  assert (allocated h1 d1) as Ha1 by (by apply apply_allocated).
  assert (allocated h2 d2) as Ha2 by (by apply apply_allocated).
  assert (leaves_alone tr1 B) as L1 by (by eapply leaves_alone_add).
  assert (leaves_alone tr2 A) as L2 by (by eapply leaves_alone_add).
  assert (leaves_alone trA B) as LA by (by eapply leaves_alone_remove).
  assert (leaves_alone trB A) as LB by (by eapply leaves_alone_remove).
  assert (decorations_of (set d1) A = [Decoration_widget p {| id := A |}])
    as P1A by (by eapply decorations_of_apply_add_new).
  assert (decorations_of (set d1) B = []) as P1B
    by (by apply decorations_of_apply_other_nil).
  assert (decorations_of (set d2) A = [Decoration_widget p {| id := A |}])
    as P2A by (by eapply decorations_of_apply_other_single).
  assert (decorations_of (set d2) B = [Decoration_widget p {| id := B |}])
    as P2B by (by eapply decorations_of_apply_add_new).
  assert (deref h2 (payloads d2) !! A = Some va) as V2A.
  { unfold d2, h2. rewrite payload_apply_other by done.
    by eapply payload_apply_add. }
  assert (deref h2 (payloads d2) !! B = Some vb) as V2B
    by (by eapply payload_apply_add).
  split; [|split].
  - split; [|split; [|split]].
    + by apply (findUploadPlaceholderPos_single _ d2 _ p).
    + by apply (findUploadPlaceholderPos_single _ d2 _ p).
    + by apply Map_get_present.
    + by apply Map_get_present.
  - split; [|split; [|split]].
    + erewrite findUploadPlaceholderPos_None_iff by done.
      by apply placeholders_apply_remove_same.
    + apply Map_get_absent. by apply payload_apply_remove.
    + apply (findUploadPlaceholderPos_single _ (apply trA d2 h2).1 _ qa);
        [done| |done].
      by eapply decorations_of_apply_other_single.
    + apply Map_get_present. by rewrite payload_apply_other.
  - split; [|split; [|split]].
    + erewrite findUploadPlaceholderPos_None_iff by done.
      by apply placeholders_apply_remove_same.
    + apply Map_get_absent. by apply payload_apply_remove.
    + apply (findUploadPlaceholderPos_single _ (apply trB d2 h2).1 _ qb);
        [done| |done].
      by eapply decorations_of_apply_other_single.
    + apply Map_get_present. by rewrite payload_apply_other.
Qed.

Lemma same_position_placeholders_are_independent_witness :
  let tr1 := {| mapping := NoMaps;
                getMeta := Some (AddPlaceholderAction "A" (JString "a") 5) |} in
  let tr2 := {| mapping := NoMaps;
                getMeta := Some (AddPlaceholderAction "B" (JString "b") 5) |} in
  let trA := {| mapping := Mapping_of [[(1, 0, 2)%Z]];
                getMeta := Some (RemovePlaceholderAction "A") |} in
  let trB := {| mapping := NoMaps;
                getMeta := Some (RemovePlaceholderAction "B") |} in
  let s0 := EditorState_create [] in
  let s1 := EditorState_apply tr1 s0.1 s0.2 in
  let s2 := EditorState_apply tr2 s1.1 s1.2 in
  let sA := EditorState_apply trA s2.1 s2.2 in
  let sB := EditorState_apply trB s2.1 s2.2 in
  (findUploadPlaceholderPos s2.1 "A" = Some 5%Z
   ∧ findUploadPlaceholderPos s2.1 "B" = Some 5%Z
   ∧ findUploadPlaceholderPayload s2.2 s2.1 "A" = JString "a"
   ∧ findUploadPlaceholderPayload s2.2 s2.1 "B" = JString "b")
  ∧ (findUploadPlaceholderPos sA.1 "A" = None
     ∧ findUploadPlaceholderPayload sA.2 sA.1 "A" = undefined
     ∧ findUploadPlaceholderPos sA.1 "B" = Some 7%Z
     ∧ findUploadPlaceholderPayload sA.2 sA.1 "B" = JString "b")
  ∧ (findUploadPlaceholderPos sB.1 "B" = None
     ∧ findUploadPlaceholderPayload sB.2 sB.1 "B" = undefined
     ∧ findUploadPlaceholderPos sB.1 "A" = Some 5%Z
     ∧ findUploadPlaceholderPayload sB.2 sB.1 "A" = JString "a").
Proof.
  apply (same_position_placeholders_are_independent (EditorState_create []).1
           (init []).1 (init []).2 _ _ _ _ "A" "B" (JString "a") (JString "b")
           5 7 5).
  - reflexivity.
  - vm_compute. lia.
  - reflexivity.
  - reflexivity.
  - reflexivity.
  - discriminate.
  - lia.
  - lia.
  - lia.
  - reflexivity.
  - reflexivity.
  - reflexivity.
  - reflexivity.
  - reflexivity.
  - reflexivity.
  - reflexivity.
Defined.

(** C10. [apply] hands back the payload reference it was given and writes
    through it: after a transaction the state it was applied to and the state
    it yields answer every payload query alike, so a payload added by the
    transaction is seen through the earlier state and a payload removed by it
    is gone from the earlier state. The decoration set of the earlier state
    is not touched: when its decorations lie at positions from 0 to 1e9, an
    identifier without a position that the transaction adds at a position
    from 0 to 1e9 has that position in the new state and still none in the
    earlier one. *)
Theorem payload_map_shared_between_states
    (tr : Transaction) (data : UploadPlaceholderPluginData) (h : heap) :
  allocated h data →
  let earlier := {| key_getState := Some data |} in
  let later := {| key_getState := Some (apply tr data h).1 |} in
  let h' := (apply tr data h).2 in
  payloads (apply tr data h).1 = payloads data
  ∧ (∀ i, findUploadPlaceholderPayload h' earlier i
          = findUploadPlaceholderPayload h' later i)
  ∧ hasUploadingFile h' earlier = hasUploadingFile h' later
  ∧ match getMeta tr with
    | Some (AddPlaceholderAction i v p) =>
        findUploadPlaceholderPayload h' earlier i = v
        ∧ hasUploadingFile h' earlier = true
        ∧ (all_visible (set data) = true → (0 ≤ p ≤ 1000000000)%Z →
           findUploadPlaceholderPos earlier i = None →
           findUploadPlaceholderPos later i = Some p)
    | Some (RemovePlaceholderAction i) =>
        findUploadPlaceholderPayload h' earlier i = undefined
        ∧ ¬ registered h' earlier i
    | None => h' = h
    end.
Proof.
  intros Ha earlier later h'. subst earlier later h'.
  pose proof (apply_payloads tr data h) as Hsame.
  split; [done|]. split; [|split].
  - intros i. unfold findUploadPlaceholderPayload. cbn [key_getState].
    by rewrite Hsame.
  - unfold hasUploadingFile. cbn [key_getState]. by rewrite Hsame.
  - destruct (getMeta tr) as [[i v p|i]|] eqn:E.
    + assert (deref (apply tr data h).2 (payloads data) !! i = Some v) as Hv.
      { rewrite <- Hsame. by eapply payload_apply_add. }
      split; [|split].
      * unfold findUploadPlaceholderPayload. cbn [key_getState].
        by apply Map_get_present.
      * unfold hasUploadingFile. cbn [key_getState].
        apply bool_decide_eq_true, Map_size_pos. exists i. by rewrite Hv.
      * intros Hvis Hp Hnone.
        assert (decorations_of (set data) i = []) as Hnil
          by exact (not_found_no_decoration {| key_getState := Some data |}
                      data i eq_refl Hvis Hnone).
        apply (findUploadPlaceholderPos_single _ (apply tr data h).1 _ p);
          [done| |done].
        by eapply decorations_of_apply_add_new.
    + assert (deref (apply tr data h).2 (payloads data) !! i = None) as Hv.
      { rewrite <- Hsame. by apply payload_apply_remove. }
      split.
      * unfold findUploadPlaceholderPayload. cbn [key_getState].
        by apply Map_get_absent.
      * intros (data' & [= <-] & Hp). unfold has_payload in Hp.
        rewrite Hv in Hp. by destruct Hp.
    + by rewrite (apply_none _ _ _ E).
Qed.

Lemma payload_map_shared_between_states_witness :
  let tr := {| mapping := NoMaps;
               getMeta := Some (AddPlaceholderAction "A" (JString "a") 5) |} in
  let data := (init []).1 in
  let h := (init []).2 in
  let earlier := {| key_getState := Some data |} in
  let later := {| key_getState := Some (apply tr data h).1 |} in
  let h' := (apply tr data h).2 in
  hasUploadingFile h earlier = false
  ∧ findUploadPlaceholderPayload h' earlier "A" = JString "a"
  ∧ hasUploadingFile h' earlier = true
  ∧ findUploadPlaceholderPos earlier "A" = None
  ∧ findUploadPlaceholderPos later "A" = Some 5%Z.
Proof.
  intros tr data h earlier later h'.
  destruct (payload_map_shared_between_states tr data h) as (_ & _ & _ & Hadd).
  - vm_compute. lia.
  - simpl in Hadd. destruct Hadd as (Hv & Hup & Hpos).
    split; [reflexivity|]. split; [exact Hv|]. split; [exact Hup|].
    split; [reflexivity|]. apply Hpos; [reflexivity | lia | reflexivity].
Defined.

(** ** Further properties of the plugin *)

(** X1. The payload queries of a session depend on the actions of its
    transactions alone, taken in order: the payload found for an identifier
    is the entry of the map the actions build from the empty map, and
    [hasUploadingFile] says whether that map is non-empty. The mappings of
    the transactions play no part. *)
Theorem payload_queries_follow_actions
    (trs : list Transaction) (h0 : heap) :
  let state := {| key_getState := Some (run trs h0).1 |} in
  let h := (run trs h0).2 in
  (∀ i, findUploadPlaceholderPayload h state i
        = default undefined (payloads_after trs ∅ !! i))
  ∧ hasUploadingFile h state = bool_decide (payloads_after trs ∅ ≠ ∅).
Proof.
  intros state h.
  assert (deref h (payloads (run trs h0).1) = payloads_after trs ∅) as Hd
    by apply deref_run.
  split.
  - intros i. unfold findUploadPlaceholderPayload, Map_get. subst state.
    cbn [key_getState]. by rewrite Hd.
  - unfold hasUploadingFile, Map_size. subst state. cbn [key_getState].
    rewrite Hd. apply bool_decide_ext.
    rewrite <- map_size_non_empty_iff. lia.
Qed.

(** X2. The number of payload entries after a transaction: an add of an
    identifier without an entry makes it one more and an add of a registered
    identifier leaves it (the payload is overwritten); a remove of a
    registered identifier makes it one less and a remove of any other leaves
    it; without an action it stays. *)
Theorem payload_count_after_apply
    (tr : Transaction) (data : UploadPlaceholderPluginData) (h : heap) :
  allocated h data →
  Map_size (apply tr data h).2 (payloads (apply tr data h).1)
  = match getMeta tr with
    | Some (AddPlaceholderAction i _ _) =>
        if Map_has h (payloads data) i then Map_size h (payloads data)
        else S (Map_size h (payloads data))
    | Some (RemovePlaceholderAction i) =>
        if Map_has h (payloads data) i then pred (Map_size h (payloads data))
        else Map_size h (payloads data)
    | None => Map_size h (payloads data)
    end.
Proof.
  intros Ha. unfold Map_size. rewrite deref_apply by done.
  unfold payloads_step, Map_has.
  destruct (getMeta tr) as [[i v p|i]|]; [| |done].
  - rewrite map_size_insert. case_bool_decide as Hi.
    + by destruct Hi as [x ->].
    + destruct (deref h (payloads data) !! i) eqn:E; [|done].
      destruct Hi. by eexists.
  - rewrite map_size_delete. case_bool_decide as Hi.
    + by destruct Hi as [x ->].
    + destruct (deref h (payloads data) !! i) eqn:E; [|done].
      destruct Hi. by eexists.
Qed.

Lemma payload_count_after_apply_witness :
  let data := (run two_uploads_session []).1 in
  let h := (run two_uploads_session []).2 in
  Map_size h (payloads data) = 1%nat
  ∧ Map_size (apply upload_a data h).2 (payloads (apply upload_a data h).1)
    = 2%nat.
Proof.
  split; [reflexivity|].
  rewrite (payload_count_after_apply upload_a
             (run two_uploads_session []).1 (run two_uploads_session []).2).
  - reflexivity.
  - vm_compute. lia.
Defined.

(** X3. A transaction whose action names another identifier, or that has no
    action, leaves the payload and the registration of an identifier as they
    were. In a state whose decorations all lie at positions from 0 to 1e9,
    it gives no position to an identifier that had none and it never
    increases the number of decorations found for the identifier. *)
Theorem other_identifiers_untouched
    (tr : Transaction) (data : UploadPlaceholderPluginData) (h : heap)
    (i : string) :
  names i tr = false →
  let earlier := {| key_getState := Some data |} in
  let later := {| key_getState := Some (apply tr data h).1 |} in
  let h' := (apply tr data h).2 in
  findUploadPlaceholderPayload h' later i
  = findUploadPlaceholderPayload h earlier i
  ∧ (registered h' later i ↔ registered h earlier i)
  ∧ (all_visible (set data) = true →
     (findUploadPlaceholderPos earlier i = None →
      findUploadPlaceholderPos later i = None)
     ∧ (length (placeholders (set (apply tr data h).1) i)
        ≤ length (placeholders (set data) i))%nat).
Proof.
  intros Hn earlier later h'. subst earlier later h'.
  pose proof (names_false_leaves_alone _ _ Hn) as Hl.
  pose proof (payload_apply_other tr data h i Hl) as Hf.
  split; [|split].
  - unfold findUploadPlaceholderPayload, Map_get. cbn [key_getState].
    by rewrite Hf.
  - unfold registered, has_payload. cbn [key_getState]. split.
    + intros (d & [= <-] & Hp). exists data. split; [done|]. by rewrite <- Hf.
    + intros (d & [= <-] & Hp). eexists. split; [done|]. by rewrite Hf.
  - intros Hv.
    assert (length (placeholders (set (apply tr data h).1) i)
            ≤ length (placeholders (set data) i))%nat as Hlen.
    { rewrite placeholders_visible.
      rewrite (all_visible_placeholders (set data)) by done.
      etrans; [apply filter_length_le|].
      rewrite (Permutation_length (decorations_of_apply_other tr data h i Hl)).
      apply omap_length_le. }
    split; [|done]. intros Hnone.
    apply (findUploadPlaceholderPos_None_iff _ data) in Hnone; [|done].
    apply (findUploadPlaceholderPos_None_iff _ (apply tr data h).1); [done|].
    rewrite Hnone in Hlen. simpl in Hlen.
    destruct (placeholders (set (apply tr data h).1) i); [done|].
    simpl in Hlen. lia.
Qed.

Lemma other_identifiers_untouched_witness :
  let data := (run two_uploads_session []).1 in
  let h := (run two_uploads_session []).2 in
  findUploadPlaceholderPayload (apply upload_a data h).2
    {| key_getState := Some (apply upload_a data h).1 |} "B"
  = JString "b.png"
  ∧ (length (placeholders (set (apply upload_a data h).1) "B")
     ≤ length (placeholders (set data) "B"))%nat.
Proof.
  intros data h.
  destruct (other_identifiers_untouched upload_a data h "B") as (Hp & _ & Hv).
  - reflexivity.
  - split; [rewrite Hp; reflexivity|]. apply Hv. reflexivity.
Defined.

(** X4. For an identifier whose only decoration is a widget at position
    [p], after any list of transactions that do not name the identifier the
    position found is [p] pushed through the mappings of the transactions in
    turn, provided no mapping deleted it and the position it ends at lies
    from 0 to 1e9; otherwise no position is found. *)
Theorem position_tracked_through_edits
    (trs : list Transaction) (data : UploadPlaceholderPluginData) (h : heap)
    (i : string) (p : Z) :
  decorations_of (set data) i = [Decoration_widget p {| id := i |}] →
  forallb (λ tr, negb (names i tr)) trs = true →
  findUploadPlaceholderPos
    {| key_getState := Some (applyAll trs data h).1 |} i
  = track trs p ≫= found_at.
Proof.
  intros Hp Hall.
  pose proof (decorations_of_applyAll_track trs data h i p Hall Hp) as Ht.
  rewrite (findUploadPlaceholderPos_Some _ (applyAll trs data h).1) by done.
  rewrite placeholders_visible, Ht.
  destruct (track trs p) as [q|]; [|done].
  cbn [mbind option_bind List.filter]. unfold found_at, visible, to.
  cbn [from Decoration_widget].
  by destruct ((q <=? 1000000000)%Z && (q >=? 0)%Z).
Qed.

Lemma position_tracked_through_edits_witness :
  let data := (apply upload_a (init []).1 (init []).2).1 in
  let h := (apply upload_a (init []).1 (init []).2).2 in
  let edits :=
    [ {| mapping := Mapping_of [[(2, 0, 3)%Z]]; getMeta := None |};
      {| mapping := Mapping_of [[(0, 4, 1)%Z]];
         getMeta := Some (AddPlaceholderAction "B" null 1) |};
      {| mapping := Mapping_of [[(5, 0, 10)%Z]; [(1, 2, 0)%Z]];
         getMeta := None |} ] in
  findUploadPlaceholderPos
    {| key_getState := Some (applyAll edits data h).1 |} "A" = Some 13%Z
  ∧ findUploadPlaceholderPos
      {| key_getState :=
           Some (applyAll (edits ++ [ {| mapping := Mapping_of [[(10, 5, 0)%Z]];
                                         getMeta := None |} ]) data h).1 |} "A"
    = None
  ∧ findUploadPlaceholderPos
      {| key_getState :=
           Some (applyAll [ {| mapping := Mapping_of [[(0, 0, 999999999)%Z]];
                               getMeta := None |} ] data h).1 |} "A"
    = None.
Proof.
  split; [|split].
  - rewrite (position_tracked_through_edits _ _ _ "A" 5); reflexivity.
  - rewrite (position_tracked_through_edits _ _ _ "A" 5); reflexivity.
  - rewrite (position_tracked_through_edits _ _ _ "A" 5); reflexivity.
Defined.

(** X5. Removing is idempotent as long as the decorations lie at positions
    from 0 to 1e9: after a transaction that removed an identifier and left
    such a state, a transaction that removes it again yields the plugin
    state and the store of the same transaction without the action. *)
Theorem remove_twice_is_remove_once
    (tr1 tr2 : Transaction) (data : UploadPlaceholderPluginData) (h : heap)
    (i : string) :
  getMeta tr1 = Some (RemovePlaceholderAction i) →
  getMeta tr2 = None →
  let data1 := (apply tr1 data h).1 in
  let h1 := (apply tr1 data h).2 in
  all_visible (set data1) = true →
  apply (setUploadPlaceholderAction tr2 (RemovePlaceholderAction i)) data1 h1
  = apply tr2 data1 h1.
Proof.
  intros E1 E2 data1 h1 Hv. apply apply_remove_absent; [done|]. split.
  - by apply decorations_of_apply_remove_visible.
  - by apply payload_apply_remove.
Qed.

Lemma remove_twice_is_remove_once_witness :
  let tr1 := {| mapping := NoMaps;
                getMeta := Some (RemovePlaceholderAction "B") |} in
  let tr2 := {| mapping := Mapping_of [[(0, 0, 1)%Z]]; getMeta := None |} in
  let data1 := (apply tr1 (run two_uploads_session []).1
                  (run two_uploads_session []).2).1 in
  let h1 := (apply tr1 (run two_uploads_session []).1
               (run two_uploads_session []).2).2 in
  apply (setUploadPlaceholderAction tr2 (RemovePlaceholderAction "B")) data1 h1
  = apply tr2 data1 h1.
Proof.
  apply (remove_twice_is_remove_once _ _ _ _ "B"); reflexivity.
Defined.

(** X6. An identifier can be used again after its removal: whatever the
    state held for it before, even several decorations, when the remove
    leaves a state whose decorations lie at positions from 0 to 1e9, an add
    at such a position in the next transaction leaves exactly one decoration
    for the identifier, at the position of the add and with the payload of
    the add. *)
Theorem identifier_reusable_after_remove
    (tr1 tr2 : Transaction) (data : UploadPlaceholderPluginData) (h : heap)
    (i : string) (v : any) (p : Z) :
  allocated h data →
  getMeta tr1 = Some (RemovePlaceholderAction i) →
  getMeta tr2 = Some (AddPlaceholderAction i v p) →
  (0 ≤ p ≤ 1000000000)%Z →
  let data1 := (apply tr1 data h).1 in
  let h1 := (apply tr1 data h).2 in
  let data2 := (apply tr2 data1 h1).1 in
  let h2 := (apply tr2 data1 h1).2 in
  let state := {| key_getState := Some data2 |} in
  all_visible (set data1) = true →
  decorations_of (set data2) i = [Decoration_widget p {| id := i |}]
  ∧ findUploadPlaceholderPos state i = Some p
  ∧ findUploadPlaceholderPayload h2 state i = v.
Proof.
  intros Ha E1 E2 Hp data1 h1 data2 h2 state Hv.
  assert (decorations_of (set data2) i = [Decoration_widget p {| id := i |}])
    as Hd.
  { apply (decorations_of_apply_add_new tr2 data1 h1 i v p E2).
    by apply decorations_of_apply_remove_visible. }
  split; [done|]. split.
  - subst state. by apply (findUploadPlaceholderPos_single _ data2 _ p).
  - subst state. unfold findUploadPlaceholderPayload. cbn [key_getState].
    apply Map_get_present. subst data2 h2.
    apply (payload_apply_add tr2 data1 h1 i v p); [|done].
    by apply apply_allocated.
Qed.

Lemma identifier_reusable_after_remove_witness :
  let tr1 := {| mapping := NoMaps;
                getMeta := Some (RemovePlaceholderAction "A") |} in
  let tr2 := {| mapping := NoMaps;
                getMeta := Some (AddPlaceholderAction "A" (JNumber 3) 9) |} in
  let data := (run double_add_session []).1 in
  let h := (run double_add_session []).2 in
  let data1 := (apply tr1 data h).1 in
  let h1 := (apply tr1 data h).2 in
  let data2 := (apply tr2 data1 h1).1 in
  let h2 := (apply tr2 data1 h1).2 in
  let state := {| key_getState := Some data2 |} in
  length (decorations_of (set data) "A") = 2%nat
  ∧ decorations_of (set data2) "A" = [Decoration_widget 9 {| id := "A" |}]
  ∧ findUploadPlaceholderPos state "A" = Some 9%Z
  ∧ findUploadPlaceholderPayload h2 state "A" = JNumber 3.
Proof.
  split; [reflexivity|].
  apply (identifier_reusable_after_remove _ _ _ _ "A" (JNumber 3) 9).
  - vm_compute. lia.
  - reflexivity.
  - reflexivity.
  - lia.
  - reflexivity.
Defined.



(** X8. Editors do not share payloads: [init] makes a [Map] of its own for
    every editor, so the transactions of one editor change nothing in what
    the payload queries answer for another one, whichever of the two was
    created first. *)
Theorem editors_do_not_share_payloads
    (trs : list Transaction) (dataA : UploadPlaceholderPluginData)
    (h0 : heap) :
  allocated h0 dataA →
  let dataB := (init h0).1 in
  let h1 := (init h0).2 in
  let A := {| key_getState := Some dataA |} in
  let B := {| key_getState := Some dataB |} in
  payloads dataB ≠ payloads dataA
  ∧ (∀ i, findUploadPlaceholderPayload (applyAll trs dataA h1).2 B i
          = undefined)
  ∧ hasUploadingFile (applyAll trs dataA h1).2 B = false
  ∧ (∀ i, findUploadPlaceholderPayload (applyAll trs dataB h1).2 A i
          = findUploadPlaceholderPayload h0 A i)
  ∧ hasUploadingFile (applyAll trs dataB h1).2 A = hasUploadingFile h0 A.
Proof.
  intros Ha dataB h1 A B.
  assert (payloads dataB ≠ payloads dataA) as Hne.
  { subst dataB. rewrite init_eq. cbn [fst payloads].
    unfold allocated in Ha. lia. }
  assert (deref (applyAll trs dataA h1).2 (payloads dataB) = ∅) as HB.
  { rewrite deref_applyAll_other by done. apply init_deref. }
  assert (deref (applyAll trs dataB h1).2 (payloads dataA)
          = deref h0 (payloads dataA)) as HA.
  { rewrite deref_applyAll_other by done. subst h1. rewrite init_eq.
    cbn [snd]. unfold deref. by rewrite lookup_app_l. }
  subst A B. unfold findUploadPlaceholderPayload, hasUploadingFile, Map_get,
    Map_size. cbn [key_getState].
  rewrite HB, HA. repeat split; done.
Qed.

Lemma editors_do_not_share_payloads_witness :
  let dataA := (run two_uploads_session []).1 in
  let h0 := (run two_uploads_session []).2 in
  let dataB := (init h0).1 in
  let h1 := (init h0).2 in
  hasUploadingFile (applyAll [upload_a] dataA h1).2
    {| key_getState := Some dataB |} = false
  ∧ findUploadPlaceholderPayload (applyAll [upload_a] dataB h1).2
      {| key_getState := Some dataA |} "A" = undefined.
Proof.
  intros dataA h0 dataB h1.
  destruct (editors_do_not_share_payloads [upload_a] dataA h0)
    as (_ & _ & HB & HA & _).
  - vm_compute. lia.
  - split; [exact HB|]. rewrite HA. reflexivity.
Defined.

(** X9. A payload of [undefined] is stored like any other: after such an add
    the identifier is registered and [hasUploadingFile] is true, and the
    identifier has a position when the add named one from 0 to 1e9, while
    [findUploadPlaceholderPayload] answers [undefined], the answer it gives
    for an identifier that is not registered. *)
Theorem undefined_payload_reads_as_absent
    (tr : Transaction) (data : UploadPlaceholderPluginData) (h : heap)
    (i : string) (p : Z) :
  allocated h data →
  getMeta tr = Some (AddPlaceholderAction i undefined p) →
  let state := {| key_getState := Some (apply tr data h).1 |} in
  let h' := (apply tr data h).2 in
  findUploadPlaceholderPayload h' state i = undefined
  ∧ registered h' state i
  ∧ hasUploadingFile h' state = true
  ∧ ((0 ≤ p ≤ 1000000000)%Z → is_Some (findUploadPlaceholderPos state i)).
Proof.
  intros Ha E state h'.
  assert (deref h' (payloads (apply tr data h).1) !! i = Some undefined) as Hv
    by (by eapply payload_apply_add).
  split; [|split; [|split]].
  - subst state. unfold findUploadPlaceholderPayload. cbn [key_getState].
    by apply Map_get_present.
  - exists (apply tr data h).1. split; [done|]. unfold has_payload.
    by rewrite Hv.
  - subst state. unfold hasUploadingFile. cbn [key_getState].
    apply bool_decide_eq_true, Map_size_pos. exists i. by rewrite Hv.
  - intros Hp. subst state.
    rewrite (findUploadPlaceholderPos_Some _ (apply tr data h).1) by done.
    destruct (placeholders (set (apply tr data h).1) i) as [|d l] eqn:Ep;
      [|by eexists].
    apply (Permutation_nil_iff _ _ (placeholders_apply tr data h i)) in Ep.
    rewrite E, String.eqb_refl, List.filter_app in Ep.
    cbn [List.filter] in Ep. rewrite visible_widget in Ep by done.
    by destruct (List.filter _ _).
Qed.

Lemma undefined_payload_reads_as_absent_witness :
  let tr := {| mapping := NoMaps;
               getMeta := Some (AddPlaceholderAction "U" undefined 4) |} in
  let state := {| key_getState := Some (apply tr (init []).1 (init []).2).1 |} in
  let h' := (apply tr (init []).1 (init []).2).2 in
  findUploadPlaceholderPayload h' state "U" = undefined
  ∧ registered h' state "U"
  ∧ hasUploadingFile h' state = true
  ∧ is_Some (findUploadPlaceholderPos state "U").
Proof.
  intros tr state h'.
  destruct (undefined_payload_reads_as_absent tr (init []).1 (init []).2 "U" 4)
    as (H1 & H2 & H3 & H4).
  - vm_compute. lia.
  - reflexivity.
  - split; [exact H1|]. split; [exact H2|]. split; [exact H3|].
    apply H4. lia.
Defined.

(** X10. An identifier that no transaction of a session added is found by
    none of the queries: no position, no payload, no decoration in the set
    handed to the editor. *)
Theorem never_added_is_never_found
    (trs : list Transaction) (h0 : heap) (i : string) :
  never_adds i trs = true →
  let state := {| key_getState := Some (run trs h0).1 |} in
  let h := (run trs h0).2 in
  findUploadPlaceholderPos state i = None
  ∧ findUploadPlaceholderPayload h state i = undefined
  ∧ ¬ registered h state i
  ∧ (∀ s d, decorations state = Some s → d ∈ s → id (spec d) ≠ i).
Proof.
  intros Hn state h.
  assert (absent i h (run trs h0).1) as [Hd Hp].
  { subst h. rewrite run_eq.
    apply applyAll_absent; [apply init_allocated | done | apply init_absent]. }
  split; [|split; [|split]].
  - subst state.
    apply (findUploadPlaceholderPos_None_iff _ (run trs h0).1); [done|].
    by apply decorations_of_nil_placeholders.
  - subst state. unfold findUploadPlaceholderPayload. cbn [key_getState].
    by apply Map_get_absent.
  - intros (d & [= <-] & Hs). unfold has_payload in Hs. fold h in Hs.
    rewrite Hp in Hs. by destruct Hs.
  - intros s d [= <-] Hin. by apply (proj1 (decorations_of_nil _ _) Hd).
Qed.

Lemma never_added_is_never_found_witness :
  let state := {| key_getState := Some (run two_uploads_session []).1 |} in
  let h := (run two_uploads_session []).2 in
  findUploadPlaceholderPos state "C" = None
  ∧ findUploadPlaceholderPayload h state "C" = undefined
  ∧ ¬ registered h state "C"
  ∧ (∀ s d, decorations state = Some s → d ∈ s → id (spec d) ≠ "C").
Proof.
  apply (never_added_is_never_found two_uploads_session [] "C").
  reflexivity.
Defined.

(** X11. An add at a position outside 0 to 1e9 is stored and painted but
    never found: the identifier has its payload and [hasUploadingFile] is
    true, yet [findUploadPlaceholderPos] has no answer; and a remove in the
    next transaction, whose mapping leaves the widget outside that range,
    deletes the payload and leaves the widget in the set handed to the
    editor. *)
Theorem out_of_range_placeholder_is_painted_but_not_found
    (tr1 tr2 : Transaction) (data : UploadPlaceholderPluginData) (h : heap)
    (i : string) (v : any) (p q : Z) :
  allocated h data →
  ¬ has_decoration data i →
  getMeta tr1 = Some (AddPlaceholderAction i v p) →
  ¬ (0 ≤ p ≤ 1000000000)%Z →
  getMeta tr2 = Some (RemovePlaceholderAction i) →
  Mapping_mapResult (mapping tr2) p 1 = {| pos := q; deleted := false |} →
  ¬ (0 ≤ q ≤ 1000000000)%Z →
  let data1 := (apply tr1 data h).1 in
  let h1 := (apply tr1 data h).2 in
  let data2 := (apply tr2 data1 h1).1 in
  let h2 := (apply tr2 data1 h1).2 in
  let s1 := {| key_getState := Some data1 |} in
  let s2 := {| key_getState := Some data2 |} in
  (decorations s1 = Some (set data1)
   ∧ Decoration_widget p {| id := i |} ∈ set data1
   ∧ findUploadPlaceholderPos s1 i = None
   ∧ findUploadPlaceholderPayload h1 s1 i = v
   ∧ hasUploadingFile h1 s1 = true)
  ∧ (decorations s2 = Some (set data2)
     ∧ Decoration_widget q {| id := i |} ∈ set data2
     ∧ findUploadPlaceholderPos s2 i = None
     ∧ findUploadPlaceholderPayload h2 s2 i = undefined
     ∧ ¬ registered h2 s2 i).
Proof.
  intros Ha Hnone E1 Hp E2 Hm Hq data1 h1 data2 h2 s1 s2.
  assert (decorations_of (set data) i = []) as Hnil.
  { destruct (decorations_of (set data) i) eqn:Ed; [done|].
    destruct Hnone. apply has_decoration_decorations_of. by rewrite Ed. }
  assert (decorations_of (set data1) i = [Decoration_widget p {| id := i |}])
    as H1 by (by eapply decorations_of_apply_add_new).
  assert (visible (Decoration_widget p {| id := i |}) = false) as Hvp.
  { apply not_true_is_false. by rewrite visible_iff. }
  assert (visible (Decoration_widget q {| id := i |}) = false) as Hvq.
  { apply not_true_is_false. by rewrite visible_iff. }
  assert (deref h1 (payloads data1) !! i = Some v) as Hv
    by (by eapply payload_apply_add).
  assert (decorations_of (set data2) i = [Decoration_widget q {| id := i |}])
    as H2.
  { apply Permutation_singleton_r. subst data2.
    rewrite decorations_of_apply, E2, String.eqb_refl, H1.
    rewrite omap_cons_Decoration_map. unfold Decoration_map.
    cbn [from Decoration_widget spec]. rewrite Hm. cbn [deleted pos omap].
    change (omap (Decoration_map (mapping tr2)) []) with (@nil Decoration).
    cbn [List.filter]. fold (Decoration_widget q {| id := i |}).
    by rewrite Hvq. }
  split.
  - split; [done|]. split; [|split; [|split]].
    + apply (elem_of_decorations_of _ i). rewrite H1. left.
    + apply (findUploadPlaceholderPos_None_iff _ data1); [done|].
      rewrite placeholders_visible, H1. cbn [List.filter]. by rewrite Hvp.
    + unfold findUploadPlaceholderPayload. cbn [key_getState].
      by apply Map_get_present.
    + unfold hasUploadingFile. cbn [key_getState].
      apply bool_decide_eq_true, Map_size_pos. exists i. by rewrite Hv.
  - assert (deref h2 (payloads data2) !! i = None) as Hv2
      by (by apply payload_apply_remove).
    split; [done|]. split; [|split; [|split]].
    + apply (elem_of_decorations_of _ i). rewrite H2. left.
    + apply (findUploadPlaceholderPos_None_iff _ data2); [done|].
      by apply placeholders_apply_remove_same.
    + unfold findUploadPlaceholderPayload. cbn [key_getState].
      by apply Map_get_absent.
    + intros (d & [= <-] & Hs). unfold has_payload in Hs.
      rewrite Hv2 in Hs. by destruct Hs.
Qed.

Lemma out_of_range_placeholder_is_painted_but_not_found_witness :
  let tr1 := {| mapping := NoMaps;
                getMeta := Some (AddPlaceholderAction "N" (JString "f") (-1)) |} in
  let tr2 := {| mapping := Mapping_of [[(0, 0, 4)%Z]];
                getMeta := Some (RemovePlaceholderAction "N") |} in
  let data1 := (apply tr1 (init []).1 (init []).2).1 in
  let h1 := (apply tr1 (init []).1 (init []).2).2 in
  let data2 := (apply tr2 data1 h1).1 in
  let h2 := (apply tr2 data1 h1).2 in
  let s1 := {| key_getState := Some data1 |} in
  let s2 := {| key_getState := Some data2 |} in
  (decorations s1 = Some (set data1)
   ∧ Decoration_widget (-1) {| id := "N" |} ∈ set data1
   ∧ findUploadPlaceholderPos s1 "N" = None
   ∧ findUploadPlaceholderPayload h1 s1 "N" = JString "f"
   ∧ hasUploadingFile h1 s1 = true)
  ∧ (decorations s2 = Some (set data2)
     ∧ Decoration_widget (-1) {| id := "N" |} ∈ set data2
     ∧ findUploadPlaceholderPos s2 "N" = None
     ∧ findUploadPlaceholderPayload h2 s2 "N" = undefined
     ∧ ¬ registered h2 s2 "N").
Proof.
  apply (out_of_range_placeholder_is_painted_but_not_found _ _
           (init []).1 (init []).2 "N" (JString "f") (-1) (-1)).
  - vm_compute. lia.
  - intros (d & Hd & _). vm_compute in Hd. by apply elem_of_nil in Hd.
  - reflexivity.
  - lia.
  - reflexivity.
  - reflexivity.
  - lia.
Defined.
